(** * Quizem: the essay grading engine and the quiz aggregator

    A shallow embedding of [essaygrader.py] and [grader.py].

    - Python values that travel through dictionaries ([Dict[str, Any]], the
      JSON returned by the model) are the inductive [pyval]; a dictionary is
      an association list in insertion order.
    - A Python [float] is an IEEE-754 binary64 number, embedded with the
      executable specification [SpecFloat] (precision 53, emax 1024).
    - A raising computation returns [inl e]; the outcome of the calls that
      leave the process (embeddings, generation) and the JSON decoder are
      gathered in the record [world].
    - Text is ASCII: [str.lower], [str.strip] and the regular expression
      classes are embedded for the ASCII range. *)

From Stdlib Require Import ZArith List Bool Ascii String Lia.
From Stdlib Require Import Floats.SpecFloat.
Import ListNotations.

Open Scope string_scope.
Open Scope Z_scope.

(* ===================================================================== *)
(** * Python values, exceptions and the error monad                       *)
(* ===================================================================== *)

#[local] Unset Elimination Schemes.

Inductive pyval : Type :=
| PNone
| PBool (b : bool)
| PInt (z : Z)
| PFloat (f : spec_float)
| PStr (s : string)
| PList (l : list pyval)
| PDict (kvs : list (string * pyval)).

#[local] Set Elimination Schemes.

(** Exceptions. [Raised n m] is an exception whose [type(e).__name__] is [n]
    and whose [str(e)] is [m]: the ones the source raises itself and the ones
    that escape the transport layer.  The other constructors are raised by
    builtins on the value they carry; CPython words their message. *)
Inductive pyexn : Type :=
| Raised (type_name message : string)
| AttributeError (v : pyval) (attr : string)
| TypeError (v : pyval)
| ValueErrorOf (v : pyval)
| OverflowError
| ZeroDivisionError.


Definition result (A : Type) : Type := (pyexn + A)%type.

Definition ret {A} (a : A) : result A := inr a.
Definition raise {A} (e : pyexn) : result A := inl e.

Definition bind {A B} (m : result A) (k : A -> result B) : result B :=
  match m with
  | inl e => inl e
  | inr a => k a
  end.

Notation "'let*' x ':=' m 'in' k" := (bind m (fun x => k))
  (at level 10, x pattern, m at level 100, k at level 200).

(** [try: m except Exception: d] *)
Definition try_default {A} (m : result A) (d : A) : A :=
  match m with
  | inl _ => d
  | inr a => a
  end.

Definition returns {A} (m : result A) : bool :=
  match m with
  | inl _ => false
  | inr _ => true
  end.

(* ===================================================================== *)
(** * Text                                                                *)
(* ===================================================================== *)

Module Text.

Definition code (c : ascii) : N := N_of_ascii c.

Definition between (lo hi : N) (c : ascii) : bool :=
  (N.leb lo (code c) && N.leb (code c) hi)%bool.

Definition is_lower (c : ascii) : bool := between 97 122 c.
Definition is_upper (c : ascii) : bool := between 65 90 c.
Definition is_digit (c : ascii) : bool := between 48 57 c.

(** [str.isspace] on the ASCII range: TAB, LF, VT, FF, CR, FS, GS, RS, US
    and the space. *)
Definition is_space (c : ascii) : bool :=
  (between 9 13 c || between 28 32 c)%bool.

(** The class [[a-z0-9]] of the tokenizer. *)
Definition is_tok_char (c : ascii) : bool := (is_lower c || is_digit c)%bool.

(** The class [\w]. *)
Definition is_word_char (c : ascii) : bool :=
  (is_lower c || is_upper c || is_digit c || N.eqb (code c) 95)%bool.

Definition newline : ascii := ascii_of_N 10.
Definition is_newline (c : ascii) : bool := N.eqb (code c) 10.
Definition is_dot (c : ascii) : bool := N.eqb (code c) 46.

Definition lower_char (c : ascii) : ascii :=
  if is_upper c then ascii_of_N (code c + 32) else c.

Fixpoint lower (s : string) : string :=
  match s with
  | EmptyString => EmptyString
  | String c s' => String (lower_char c) (lower s')
  end.

Fixpoint lstrip (s : string) : string :=
  match s with
  | EmptyString => EmptyString
  | String c s' => if is_space c then lstrip s' else s
  end.

Fixpoint rstrip (s : string) : string :=
  match s with
  | EmptyString => EmptyString
  | String c s' =>
      match rstrip s' with
      | EmptyString => if is_space c then EmptyString else String c EmptyString
      | r => String c r
      end
  end.

Definition strip (s : string) : string := rstrip (lstrip s).

Definition is_empty (s : string) : bool :=
  match s with
  | EmptyString => true
  | String _ _ => false
  end.

Definition snoc (s : string) (c : ascii) : string := s ++ String c EmptyString.

Definition head (s : string) : option ascii :=
  match s with
  | EmptyString => None
  | String c _ => Some c
  end.

Fixpoint last (prev : option ascii) (s : string) : option ascii :=
  match s with
  | EmptyString => prev
  | String c s' => last (Some c) s'
  end.

(** [strip_prefix t s] is [Some rest] when [s = t ++ rest]. *)
Fixpoint strip_prefix (t s : string) : option string :=
  match t with
  | EmptyString => Some s
  | String a t' =>
      match s with
      | EmptyString => None
      | String b s' => if Ascii.eqb a b then strip_prefix t' s' else None
      end
  end.

Fixpoint take (n : nat) (s : string) : string :=
  match n, s with
  | S n', String c s' => String c (take n' s')
  | _, _ => EmptyString
  end.

Fixpoint drop (n : nat) (s : string) : string :=
  match n, s with
  | S n', String _ s' => drop n' s'
  | _, _ => s
  end.

(** [" ".join(l)] *)
Fixpoint join_space (l : list string) : string :=
  match l with
  | [] => EmptyString
  | [s] => s
  | s :: l' => s ++ " " ++ join_space l'
  end.

End Text.

(* ===================================================================== *)
(** * Regular expressions of the source                                   *)
(* ===================================================================== *)

Module Re.
Import Text.

(** [re.split(r"[^a-z0-9]+", s)]: the pieces between the maximal runs of
    separator characters, the empty pieces at both ends included.
    [piece] is the piece being read and [in_sep] says that the previous
    character was a separator. *)
Fixpoint split_from (piece : string) (in_sep : bool) (s : string) : list string :=
  match s with
  | EmptyString => [piece]
  | String c s' =>
      if is_tok_char c then split_from (snoc piece c) false s'
      else if in_sep then split_from piece true s'
      else piece :: split_from EmptyString true s'
  end.

Definition split_non_alnum (s : string) : list string :=
  split_from EmptyString false s.

(** [\b] between a character and its successor; an end of the text counts
    as a non-word character. *)
Definition is_word (c : option ascii) : bool :=
  match c with
  | None => false
  | Some a => is_word_char a
  end.

Definition boundary (before after : option ascii) : bool :=
  xorb (is_word before) (is_word after).

(** [\bT\b] matched at the current position: [prev] is the character before
    it and [s] the text from it. The rest after the match is returned. *)
Definition word_here (t : string) (prev : option ascii) (s : string) : option string :=
  if boundary prev (head s) then
    match strip_prefix t s with
    | Some rest => if boundary (last prev t) (head rest) then Some rest else None
    | None => None
    end
  else None.

(** [re.search(rf"\b{t}\b", s)] as a truth value: the positions are tried
    from left to right, the end of the text included. *)
Fixpoint word_search_from (t : string) (prev : option ascii) (s : string) : bool :=
  match word_here t prev s with
  | Some _ => true
  | None =>
      match s with
      | EmptyString => false
      | String c s' => word_search_from t (Some c) s'
      end
  end.

Definition word_search (t s : string) : bool := word_search_from t None s.

(** [.+?\.] at the start of [s]: one character other than a newline, then
    as few as possible, then a dot. Returns the matched text. *)
Fixpoint lazy_to_dot (s : string) : option string :=
  match s with
  | EmptyString => None
  | String c s' =>
      if is_dot c then Some (String c EmptyString)
      else if is_newline c then None
      else match lazy_to_dot s' with
           | Some m => Some (String c m)
           | None => None
           end
  end.

Definition some_then_dot (s : string) : option string :=
  match s with
  | EmptyString => None
  | String c s' =>
      if is_newline c then None
      else match lazy_to_dot s' with
           | Some m => Some (String c m)
           | None => None
           end
  end.

(** The number of leading characters [.] can match, at most [limit]. *)
Fixpoint dot_run (limit : nat) (s : string) : nat :=
  match limit, s with
  | S l, String c s' => if is_newline c then O else S (dot_run l s')
  | _, _ => O
  end.

(** [\bT\b.+?\.] after a prefix of [k] characters taken by [.{0,40}]. *)
Definition snippet_after (t : string) (prev : option ascii) (s : string) (k : nat)
  : option string :=
  let pre := take k s in
  match word_here t (last prev pre) (drop k s) with
  | Some rest =>
      match some_then_dot rest with
      | Some tail => Some (pre ++ t ++ tail)
      | None => None
      end
  | None => None
  end.

(** The greedy [.{0,40}]: the longest prefix first, then shorter ones. *)
Fixpoint snippet_greedy (t : string) (prev : option ascii) (s : string) (k : nat)
  : option string :=
  match snippet_after t prev s k with
  | Some m => Some m
  | None =>
      match k with
      | O => None
      | S k' => snippet_greedy t prev s k'
      end
  end.

Definition snippet_here (t : string) (prev : option ascii) (s : string) : option string :=
  snippet_greedy t prev s (dot_run 40 s).

(** [re.search(rf"(.{{0,40}}\b{t}\b.+?\.)", s)], the text of group 0. *)
Fixpoint snippet_search_from (t : string) (prev : option ascii) (s : string)
  : option string :=
  match snippet_here t prev s with
  | Some m => Some m
  | None =>
      match s with
      | EmptyString => None
      | String c s' => snippet_search_from t (Some c) s'
      end
  end.

Definition snippet_search (t s : string) : option string :=
  snippet_search_from t None s.

End Re.

(* ===================================================================== *)
(** * Numbers: [int] and binary64 [float]                                 *)
(* ===================================================================== *)

Module Num.

Definition prec : Z := 53.
Definition emax : Z := 1024.

Definition float : Type := spec_float.

Definition fzero : float := S754_zero false.
(** [0.5] *)
Definition fhalf : float := S754_finite false 4503599627370496 (-53).
(** [100.0] *)
Definition fhundred : float := S754_finite false 7036874417766400 (-46).

Definition fadd : float -> float -> float := SFadd prec emax.
Definition fmul : float -> float -> float := SFmul prec emax.
Definition fdiv_raw : float -> float -> float := SFdiv prec emax.

Definition is_nan (f : float) : bool :=
  match f with
  | S754_nan => true
  | _ => false
  end.

Definition is_inf (f : float) : bool :=
  match f with
  | S754_infinity _ => true
  | _ => false
  end.

Definition is_finite (f : float) : bool :=
  match f with
  | S754_zero _ | S754_finite _ _ _ => true
  | _ => false
  end.

(** [float(z)] for an [int]: the nearest binary64 number, ties to even;
    [OverflowError] when it is out of range. *)
Definition float_of_int (z : Z) : result float :=
  let f := binary_normalize prec emax z 0 false in
  if is_inf f then raise OverflowError else ret f.

(** The value of a finite float is [signed_mantissa f * 2 ^ exponent f]. *)
Definition signed_mantissa (f : float) : Z :=
  match f with
  | S754_finite s m _ => cond_Zopp s (Zpos m)
  | _ => 0
  end.

Definition exponent (f : float) : Z :=
  match f with
  | S754_finite _ _ e => e
  | _ => 0
  end.

(** Python compares a [float] with an [int] exactly. *)
Definition compare_float_int (f : float) (z : Z) : option comparison :=
  match f with
  | S754_nan => None
  | S754_infinity s => Some (if s then Lt else Gt)
  | S754_zero _ => Some (Z.compare 0 z)
  | S754_finite _ _ e =>
      if 0 <=? e then Some (Z.compare (signed_mantissa f * 2 ^ e) z)
      else Some (Z.compare (signed_mantissa f) (z * 2 ^ (- e)))
  end.

(** Round half to even of [n / d], for [0 < d]. *)
Definition round_half_even_div (n d : Z) : Z :=
  let q := n / d in
  let r := n mod d in
  match Z.compare (2 * r) d with
  | Lt => q
  | Gt => q + 1
  | Eq => if Z.even q then q else q + 1
  end.

(** [round(f)] for a [float]: the nearest [int], ties to even. *)
Definition round_float (f : float) : result Z :=
  match f with
  | S754_nan => raise (Raised "ValueError" "cannot convert float NaN to integer")
  | S754_infinity _ => raise OverflowError
  | S754_zero _ => ret 0
  | S754_finite _ _ e =>
      if 0 <=? e then ret (signed_mantissa f * 2 ^ e)
      else ret (round_half_even_div (signed_mantissa f) (2 ^ (- e)))
  end.

(** [int(f)] for a [float]: truncation towards zero. *)
Definition trunc_float (f : float) : result Z :=
  match f with
  | S754_nan => raise (Raised "ValueError" "cannot convert float NaN to integer")
  | S754_infinity _ => raise OverflowError
  | S754_zero _ => ret 0
  | S754_finite _ _ e =>
      if 0 <=? e then ret (signed_mantissa f * 2 ^ e)
      else ret (Z.quot (signed_mantissa f) (2 ^ (- e)))
  end.

(** [a / b] for two [int]s. Both operands are counts here, far below
    [2^53], where the quotient of the two converted operands is the
    correctly rounded quotient CPython returns. *)
Definition int_truediv (a b : Z) : result float :=
  if b =? 0 then raise ZeroDivisionError
  else
    let* fa := float_of_int a in
    let* fb := float_of_int b in
    ret (fdiv_raw fa fb).

(** [x / y] for two [float]s. *)
Definition float_truediv (x y : float) : result float :=
  if SFeqb y fzero then raise ZeroDivisionError else ret (fdiv_raw x y).

(** [math.sqrt] *)
Definition math_sqrt (x : float) : result float :=
  match x with
  | S754_finite true _ _ | S754_infinity true =>
      raise (Raised "ValueError" "math domain error")
  | _ => ret (SFsqrt prec emax x)
  end.

(** [sum(xs)] over floats, from the [int] 0: a left fold of additions (the
    compensated summation of CPython 3.12 can differ in the last bit; no
    statement below depends on the order of the additions). *)
Definition float_sum (xs : list float) : float := fold_left fadd xs fzero.

(** A number that is an [int] or a [float], as [min] and [max] hand it on. *)
Inductive num : Type :=
| NInt (z : Z)
| NFloat (f : float).

(** [a < b] *)
Definition num_lt (a b : num) : bool :=
  match a, b with
  | NInt x, NInt y => x <? y
  | NFloat f, NInt y =>
      match compare_float_int f y with
      | Some Lt => true
      | _ => false
      end
  | NInt x, NFloat g =>
      match compare_float_int g x with
      | Some Gt => true
      | _ => false
      end
  | NFloat f, NFloat g => SFltb f g
  end.

(** [max(a, b)]: the first maximal argument. *)
Definition py_max (a b : num) : num := if num_lt a b then b else a.

(** [min(a, b)]: the first minimal argument. *)
Definition py_min (a b : num) : num := if num_lt b a then b else a.

(** [round(x)] *)
Definition py_round (x : num) : result Z :=
  match x with
  | NInt z => ret z
  | NFloat f => round_float f
  end.

End Num.

(* ===================================================================== *)
(** * Builtins on Python values                                           *)
(* ===================================================================== *)

Module Py.
Import Text Num.

(** Truth value of an object. *)
Definition truthy (v : pyval) : bool :=
  match v with
  | PNone => false
  | PBool b => b
  | PInt z => negb (z =? 0)
  | PFloat f => negb (SFeqb f fzero)
  | PStr s => negb (is_empty s)
  | PList l => match l with [] => false | _ => true end
  | PDict kvs => match kvs with [] => false | _ => true end
  end.

(** [a or b] *)
Definition py_or (a b : pyval) : pyval := if truthy a then a else b.

Fixpoint dict_get (kvs : list (string * pyval)) (k : string) : option pyval :=
  match kvs with
  | [] => None
  | (k', v) :: rest => if String.eqb k' k then Some v else dict_get rest k
  end.

(** [v.get(k, default)]; only a [dict] has the method. *)
Definition get (v : pyval) (k : string) (default : pyval) : result pyval :=
  match v with
  | PDict kvs =>
      match dict_get kvs k with
      | Some x => ret x
      | None => ret default
      end
  | _ => raise (AttributeError v "get")
  end.

Definition is_dict (v : pyval) : bool :=
  match v with
  | PDict _ => true
  | _ => false
  end.

Definition is_str (v : pyval) : bool :=
  match v with
  | PStr _ => true
  | _ => false
  end.

(** [isinstance(v, int)]: [bool] is a subclass of [int]. *)
Definition is_int (v : pyval) : bool :=
  match v with
  | PInt _ | PBool _ => true
  | _ => false
  end.

Definition int_of_bool (b : bool) : Z := if b then 1 else 0.

Definition digit_value (c : ascii) : Z := Z.of_N (code c) - 48.

(** The digits of a decimal literal; an underscore may stand between two
    digits. [after_digit] says that the previous character was a digit. *)
Fixpoint digits_value (acc : Z) (after_digit : bool) (s : string) : option Z :=
  match s with
  | EmptyString => if after_digit then Some acc else None
  | String c s' =>
      if is_digit c then digits_value (10 * acc + digit_value c) true s'
      else if (N.eqb (code c) 95 && after_digit)%bool then digits_value acc false s'
      else None
  end.

(** [int(s)] for a [str]: blanks around, an optional sign, the digits. *)
Definition int_literal (s : string) : option Z :=
  match strip s with
  | String c rest =>
      if N.eqb (code c) 43 then digits_value 0 false rest
      else if N.eqb (code c) 45 then option_map Z.opp (digits_value 0 false rest)
      else digits_value 0 false (String c rest)
  | EmptyString => None
  end.

(** [int(v)] *)
Definition py_int (v : pyval) : result Z :=
  match v with
  | PInt z => ret z
  | PBool b => ret (int_of_bool b)
  | PFloat f => trunc_float f
  | PStr s =>
      match int_literal s with
      | Some z => ret z
      | None => raise (ValueErrorOf v)
      end
  | _ => raise (TypeError v)
  end.

Fixpoint chars (s : string) : list pyval :=
  match s with
  | EmptyString => []
  | String c s' => PStr (String c EmptyString) :: chars s'
  end.

(** The items an iteration over [v] yields. *)
Definition iter (v : pyval) : result (list pyval) :=
  match v with
  | PList l => ret l
  | PStr s => ret (chars s)
  | PDict kvs => ret (map (fun kv => PStr (fst kv)) kvs)
  | _ => raise (TypeError v)
  end.

(** [a == v] for an [int] [a]. *)
Definition int_eq (a : Z) (v : pyval) : bool :=
  match v with
  | PInt z => a =? z
  | PBool b => a =? int_of_bool b
  | PFloat f =>
      match compare_float_int f a with
      | Some Eq => true
      | _ => false
      end
  | _ => false
  end.

(** The strings of a list of [str]; [None] when the value is not a list or
    holds something else. *)
Fixpoint strings_of (l : list pyval) : option (list string) :=
  match l with
  | [] => Some []
  | PStr s :: l' => option_map (cons s) (strings_of l')
  | _ :: _ => None
  end.

Definition list_of_str (v : pyval) : option (list string) :=
  match v with
  | PList l => strings_of l
  | _ => None
  end.

End Py.

(* ===================================================================== *)
(** * essaygrader.py                                                      *)
(* ===================================================================== *)

Module EssayGrader.
Import Text Num Py.

(** A string the source builds with [str(v)] on a value of the model. *)
Inductive text : Type :=
| Lit (s : string)
| StrOf (v : pyval)
| BuiltinFailure (e : pyexn).

(** The [reason] of a deduction, one constructor per template of the source:
    [str(v)], [f"Missing requirement: {v}"], the partial coverage sentence
    and the reconciliation sentence with its two numbers. *)
Inductive reason_text : Type :=
| ReasonOf (v : pyval)
| MissingRequirement (v : pyval)
| PartialCoverage
| Reconciliation (total expected : Z).

(** A deduction dictionary. A key that is absent is [None]. *)
Record Deduction : Type := {
  d_reason : reason_text;
  d_points : Z;
  d_requirement : option pyval;
  d_evidence : option pyval;
  d_category : option pyval
}.

(** [raw_response]: the text of the model, or [json.dumps] of a value. *)
Inductive raw : Type :=
| RawText (s : string)
| RawJson (v : pyval).

Record GradeResult : Type := {
  grade : Z;
  reasons : list text;
  coverage : list pyval;
  backend : string;
  model_used : option string;
  raw_response : option raw;
  semantic_similarity : option float;
  domain_analysis : pyval;
  max_points : Z;
  deductions : list Deduction;
  total_deductions : Z
}.

(** What a call of [grade_essay] meets outside the process: the two
    embedding requests, the generation request, and the JSON decoder. *)
Record world : Type := {
  embedding_essay : result (list float);
  embedding_ideal : result (list float);
  generate : result string;
  json_loads : string -> option pyval
}.

(** ** Deductions *)

(** [[c for c in coverage if not c.get("addressed")]] *)
Fixpoint missed_items (coverage : list pyval) : result (list pyval) :=
  match coverage with
  | [] => ret []
  | c :: rest =>
      let* a := get c "addressed" PNone in
      let* tl := missed_items rest in
      ret (if truthy a then tl else c :: tl)
  end.

Definition missing_deduction (base remainder : Z) (idx : nat) (c : pyval)
  : result Deduction :=
  let pts := base + (if Z.of_nat idx <? remainder then 1 else 0) in
  let* r := get c "requirement" (PStr "") in
  let* req := get c "requirement" PNone in
  let* ev := get c "evidence" PNone in
  ret {| d_reason := MissingRequirement r;
         d_points := pts;
         d_requirement := Some req;
         d_evidence := Some ev;
         d_category := Some (PStr "missing_requirement") |}.

(** The loop over [enumerate(missed)], from the index [idx]. *)
Fixpoint missing_deductions (base remainder : Z) (idx : nat) (missed : list pyval)
  : result (list Deduction) :=
  match missed with
  | [] => ret []
  | c :: rest =>
      let* d := missing_deduction base remainder idx c in
      let* tl := missing_deductions base remainder (S idx) rest in
      ret (d :: tl)
  end.

Definition partial_deduction (missing_points : Z) : Deduction :=
  {| d_reason := PartialCoverage;
     d_points := missing_points;
     d_requirement := None;
     d_evidence := None;
     d_category := Some (PStr "partial_coverage") |}.

Definition _synthesize_deductions (grade max_points : Z) (coverage : list pyval)
  : result (list Deduction * Z) :=
  let missing_points := Z.max 0 (max_points - grade) in
  if missing_points =? 0 then ret ([], 0)
  else
    let* missed := missed_items coverage in
    match missed with
    | _ :: _ =>
        let n := Z.of_nat (List.length missed) in
        let base := missing_points / n in
        let remainder := missing_points - base * n in
        let* ds := missing_deductions base remainder 0 missed in
        ret (ds, missing_points)
    | [] => ret ([partial_deduction missing_points], missing_points)
    end.

(** One pass of the normalisation loop over a deduction of the model. *)
Definition normalize_deduction (d : pyval) : option Deduction :=
  match d with
  | PDict kvs =>
      let field k := match dict_get kvs k with Some x => x | None => PNone end in
      let keep k := match field k with PNone => None | x => Some x end in
      let reason := py_or (py_or (field "reason") (field "note")) (PStr "Deduction") in
      let pts := try_default (py_int (field "points")) 0 in
      Some {| d_reason := ReasonOf reason;
              d_points := Z.max 0 pts;
              d_requirement := keep "requirement";
              d_evidence := keep "evidence";
              d_category := keep "category" |}
  | _ => None
  end.

Fixpoint normalize_deductions (ds : list pyval) : list Deduction :=
  match ds with
  | [] => []
  | d :: rest =>
      match normalize_deduction d with
      | Some item => item :: normalize_deductions rest
      | None => normalize_deductions rest
      end
  end.

Definition sum_points (ds : list Deduction) : Z :=
  fold_right (fun d acc => d_points d + acc) 0 ds.

Definition reconciliation_deduction (total_ded expected : Z) : Deduction :=
  {| d_reason := Reconciliation total_ded expected;
     d_points := Z.max 0 (expected - total_ded);
     d_requirement := None;
     d_evidence := None;
     d_category := Some (PStr "reconciliation") |}.

(** The branch of [grade_essay] that keeps the deductions of the model. *)
Definition reconcile (grade max_points : Z) (llm_deductions : list pyval)
  : list Deduction * Z :=
  let normalized := normalize_deductions llm_deductions in
  let total_ded := sum_points normalized in
  let expected := max_points - grade in
  if negb (total_ded =? expected)
  then ((normalized ++ [reconciliation_deduction total_ded expected])%list, expected)
  else (normalized, total_ded).

(** ** Semantic similarity *)

Fixpoint products (v1 v2 : list float) : list float :=
  match v1, v2 with
  | a :: r1, b :: r2 => fmul a b :: products r1 r2
  | _, _ => []
  end.

Definition is_nil {A} (l : list A) : bool :=
  match l with
  | [] => true
  | _ => false
  end.

Definition _cosine_similarity (v1 v2 : list float) : result float :=
  if (is_nil v1 || is_nil v2 || negb (Nat.eqb (List.length v1) (List.length v2)))%bool
  then ret fzero
  else
    let dot_product := float_sum (products v1 v2) in
    let* magnitude1 := math_sqrt (float_sum (products v1 v1)) in
    let* magnitude2 := math_sqrt (float_sum (products v2 v2)) in
    if (SFeqb magnitude1 fzero || SFeqb magnitude2 fzero)%bool
    then ret fzero
    else float_truediv dot_product (fmul magnitude1 magnitude2).

Definition _compute_semantic_score (w : world) : option float :=
  let attempt : result (option float) :=
    let* vec_essay := embedding_essay w in
    let* vec_ideal := embedding_ideal w in
    if (is_nil vec_essay || is_nil vec_ideal)%bool then ret None
    else
      let* s := _cosine_similarity vec_essay vec_ideal in
      ret (Some s) in
  try_default attempt None.

(** ** Parsing the answer of the model *)

(** The loop of [_extract_first_json_object] from the first opening brace:
    [seen] is the text read since that brace. *)
Fixpoint match_braces (depth : Z) (seen : string) (s : string) : option string :=
  match s with
  | EmptyString => None
  | String c s' =>
      if N.eqb (code c) 123 then match_braces (depth + 1) (snoc seen c) s'
      else if N.eqb (code c) 125 then
        if depth - 1 =? 0 then Some (snoc seen c)
        else match_braces (depth - 1) (snoc seen c) s'
      else match_braces depth (snoc seen c) s'
  end.

Fixpoint _extract_first_json_object (text : string) : option string :=
  match text with
  | EmptyString => None
  | String c s' =>
      if N.eqb (code c) 123 then match_braces 0 EmptyString text
      else _extract_first_json_object s'
  end.

(** [None] is [PNone], as in the source. *)
Definition _parse_llm_json (w : world) (text : string) : pyval :=
  match json_loads w text with
  | Some v => v
  | None =>
      match _extract_first_json_object text with
      | Some m =>
          match json_loads w m with
          | Some v => v
          | None => PNone
          end
      | None => PNone
      end
  end.

(** ** The lexical heuristic *)

Definition float_of_count (n : nat) : float :=
  binary_normalize prec emax (Z.of_nat n) 0 false.

(** [a / b] for two counts, [b] not zero: both are exact as floats. *)
Definition count_truediv (a b : nat) : float :=
  fdiv_raw (float_of_count a) (float_of_count b).

(** [[t for t in re.split(r"[^a-z0-9]+", requirement.lower()) if len(t) > 2]] *)
Definition tokens_of (requirement : string) : list string :=
  filter (fun t => Nat.ltb 2 (String.length t))
         (Re.split_non_alnum (lower requirement)).

(** [sum(1 for t in tokens if re.search(rf"\b{t}\b", essay_lc))] *)
Definition count_matches (essay_lc : string) (tokens : list string) : nat :=
  List.length (filter (fun t => Re.word_search t essay_lc) tokens).

(** The loop that looks for the evidence: the first token with a snippet. *)
Fixpoint first_snippet (essay_lc : string) (tokens : list string) : string :=
  match tokens with
  | [] => EmptyString
  | t :: rest =>
      match Re.snippet_search t essay_lc with
      | Some m => "..." ++ strip m
      | None => first_snippet essay_lc rest
      end
  end.

Definition _simple_requirement_match (essay_lc requirement : string) : bool * string :=
  let tokens := tokens_of requirement in
  match tokens with
  | [] => (false, EmptyString)
  | _ :: _ =>
      let matches := count_matches essay_lc tokens in
      let ratio := count_truediv matches (Nat.max 1 (List.length tokens)) in
      let addressed := (SFleb fhalf ratio || Nat.leb 3 matches)%bool in
      let evidence := if addressed then first_snippet essay_lc tokens else EmptyString in
      (addressed, evidence)
  end.

Definition coverage_item (requirement : string) (addressed : bool) (evidence : string)
  : pyval :=
  PDict [("requirement", PStr requirement);
         ("addressed", PBool addressed);
         ("evidence", PStr evidence)].

Fixpoint coverage_loop (essay_lc : string) (requirements : list string) : list pyval :=
  match requirements with
  | [] => []
  | req :: rest =>
      let req_str := strip req in
      if is_empty req_str then coverage_loop essay_lc rest
      else
        let '(addressed, evidence) := _simple_requirement_match essay_lc req_str in
        coverage_item req_str addressed evidence :: coverage_loop essay_lc rest
  end.

Definition _heuristic_coverage (essay : string) (requirements : list string)
  : list pyval :=
  coverage_loop (lower essay) requirements.

(** [sum(1 for c in coverage if c.get("addressed"))] *)
Fixpoint count_addressed (coverage : list pyval) : result nat :=
  match coverage with
  | [] => ret O
  | c :: rest =>
      let* a := get c "addressed" PNone in
      let* n := count_addressed rest in
      ret (if truthy a then S n else n)
  end.

Definition _coverage_to_grade (coverage : list pyval) (max_points : Z) : result Z :=
  match coverage with
  | [] => ret 0
  | _ :: _ =>
      let* addressed := count_addressed coverage in
      let ratio := count_truediv addressed (List.length coverage) in
      let* points := float_of_int max_points in
      let scaled := fmul ratio points in
      py_round (py_min (NInt max_points) (py_max (NInt 0) (NFloat scaled)))
  end.

(** ** The orchestrator *)

Definition fallback_note : string :=
  "Local model unavailable or call failed; applied heuristic grading.".

(** [f"Reason: {type(e).__name__}: {e}"] *)
Definition failure_line (e : pyexn) : text :=
  match e with
  | Raised n m => Lit ("Reason: " ++ n ++ ": " ++ m)
  | _ => BuiltinFailure e
  end.

Definition non_json_reasons : list text :=
  [Lit "LLM returned non-JSON. Extracted text provided in raw_response; using heuristic coverage for structure.";
   Lit "Consider adjusting the prompt or model to improve JSON adherence."].

(** The branch taken when the model returned no JSON. *)
Definition unparseable_result (essay : string) (requirements : list string)
    (model : string) (max_points : Z) (similarity_score : option float)
    (response_text : string) : result GradeResult :=
  let coverage := _heuristic_coverage essay requirements in
  let* grade := _coverage_to_grade coverage max_points in
  let* (deductions, total_ded) := _synthesize_deductions grade max_points coverage in
  ret {| grade := grade;
         reasons := non_json_reasons;
         coverage := coverage;
         backend := "ollama";
         model_used := Some model;
         raw_response := Some (RawText response_text);
         semantic_similarity := similarity_score;
         domain_analysis := PNone;
         max_points := max_points;
         deductions := deductions;
         total_deductions := total_ded |}.

(** The branch taken on a parsed answer. *)
Definition parsed_result (essay : string) (requirements : list string)
    (model : string) (max_points : Z) (similarity_score : option float)
    (parsed : pyval) : result GradeResult :=
  let* g := get parsed "grade" (PInt 0) in
  let* gi := py_int g in
  let grade := Z.max 0 (Z.min max_points gi) in
  let* reasons0 := get parsed "reasons" PNone in
  let reasons := py_or reasons0 (PList []) in
  let* coverage0 := get parsed "coverage" PNone in
  let* domain_analysis := get parsed "domain_analysis" PNone in
  let* llm_deductions := get parsed "deductions" PNone in
  let coverage :=
    match py_or coverage0 (PList []) with
    | PList (c :: cs) => c :: cs
    | _ => _heuristic_coverage essay requirements
    end in
  let* (deductions, total_ded) :=
    match llm_deductions with
    | PList (d :: ds) => ret (reconcile grade max_points (d :: ds))
    | _ => _synthesize_deductions grade max_points coverage
    end in
  let* items := iter reasons in
  let shown :=
    match items with
    | [] => [Lit "Model did not provide reasons."]
    | _ :: _ => map StrOf items
    end in
  ret {| grade := grade;
         reasons := shown;
         coverage := coverage;
         backend := "ollama";
         model_used := Some model;
         raw_response := Some (RawJson parsed);
         semantic_similarity := similarity_score;
         domain_analysis := domain_analysis;
         max_points := max_points;
         deductions := deductions;
         total_deductions := total_ded |}.

(** The body of the [try]. *)
Definition model_path (w : world) (essay : string) (requirements : list string)
    (model : string) (max_points : Z) : result GradeResult :=
  let similarity_score := _compute_semantic_score w in
  let* response_text := generate w in
  match _parse_llm_json w response_text with
  | PNone =>
      unparseable_result essay requirements model max_points similarity_score response_text
  | parsed =>
      parsed_result essay requirements model max_points similarity_score parsed
  end.

(** The body of the [except Exception as e]. *)
Definition fallback_path (essay : string) (requirements : list string)
    (max_points : Z) (e : pyexn) : result GradeResult :=
  let coverage := _heuristic_coverage essay requirements in
  let* grade := _coverage_to_grade coverage max_points in
  let* (deductions, total_ded) := _synthesize_deductions grade max_points coverage in
  ret {| grade := grade;
         reasons := [Lit fallback_note; failure_line e];
         coverage := coverage;
         backend := "fallback";
         model_used := None;
         raw_response := None;
         semantic_similarity := None;
         domain_analysis := PNone;
         max_points := max_points;
         deductions := deductions;
         total_deductions := total_ded |}.

Definition essay_error : pyexn := Raised "ValueError" "essay must be a non-empty string".
Definition requirements_error : pyexn :=
  Raised "ValueError" "requirements must be a list of strings".

(** [grade_essay(essay, requirements, model=model, max_points=max_points)];
    [model] is the name the call resolves, [w] what the call meets outside. *)
Definition grade_essay (w : world) (essay requirements : pyval) (model : string)
    (max_points : Z) : result GradeResult :=
  match essay with
  | PStr text =>
      if is_empty (strip text) then raise essay_error
      else
        match list_of_str requirements with
        | None => raise requirements_error
        | Some reqs =>
            match model_path w text reqs model max_points with
            | inr r => ret r
            | inl e => fallback_path text reqs max_points e
            end
        end
  | _ => raise essay_error
  end.

End EssayGrader.

(* ===================================================================== *)
(** * grader.py                                                           *)
(* ===================================================================== *)

Module Grader.
Import Text Num Py EssayGrader.

Definition _question_type (q : pyval) : result string :=
  let* t0 := get q "type" PNone in
  match py_or t0 (PStr "mc") with
  | PStr s =>
      let t := lower (strip s) in
      ret (if String.eqb t "essay" then "essay" else "mc")
  | v => raise (AttributeError v "strip")
  end.

Definition _points_for_mc (q : pyval) : Z :=
  try_default (let* p := get q "points" (PInt 1) in py_int p) 1.

Definition _points_for_essay (q : pyval) : Z :=
  try_default
    (let* d := get q "points" (PInt 10) in
     let* p := get q "max_points" d in
     let* i := py_int p in
     ret (Z.max 1 i))
    10.

Inductive details : Type :=
| McDetails (selected_index correct_index options text : pyval)
| EssayDetails (prompt requirements : pyval) (essaygrader : GradeResult).

Record PerQuestion : Type := {
  q_type : string;
  awarded : Z;
  q_max_points : Z;
  correct : option bool;
  q_details : details
}.

(** [percent]: [0.0], or [round((score / total) * 100, 2)] kept as the two
    integers it is computed from. *)
Inductive percent_value : Type :=
| PercentZero
| PercentOf (score_points total_points : Z).

Record QuizScore : Type := {
  score : Z;
  total : Z;
  percent : percent_value;
  per_question : list PerQuestion
}.

(** [round((grade / 100.0) * max_pts)], then the clamp to [0, max_pts]. *)
Definition rescale (grade max_pts : Z) : result Z :=
  let* g := float_of_int grade in
  let* ratio := float_truediv g fhundred in
  let* m := float_of_int max_pts in
  let* awarded := round_float (fmul ratio m) in
  ret (Z.max 0 (Z.min max_pts awarded)).

Definition grade_essay_question (w : world) (model : string) (q a : pyval)
  : result PerQuestion :=
  let max_pts := _points_for_essay q in
  let* r0 := get q "requirements" PNone in
  let requirements :=
    match py_or r0 (PList []) with
    | PList l => PList l
    | _ => PList []
    end in
  let essay_text := if is_str a then a else py_or a (PStr "") in
  let* eg := grade_essay w essay_text requirements model 100 in
  let* awarded := rescale (grade eg) max_pts in
  let* prompt := get q "text" PNone in
  ret {| q_type := "essay";
         awarded := awarded;
         q_max_points := max_pts;
         correct := None;
         q_details := EssayDetails prompt requirements eg |}.

Definition grade_mc_question (q a : pyval) : result PerQuestion :=
  let max_pts := _points_for_mc q in
  let* ci := get q "correct_index" PNone in
  let ai := if is_int a then a else PNone in
  let correct :=
    match ai with
    | PInt z => int_eq z ci
    | PBool b => int_eq (int_of_bool b) ci
    | _ => false
    end in
  let awarded := if correct then max_pts else 0 in
  let* options := get q "options" (PList []) in
  let* text := get q "text" PNone in
  ret {| q_type := "mc";
         awarded := awarded;
         q_max_points := max_pts;
         correct := Some correct;
         q_details := McDetails ai ci options text |}.

(** One turn of the loop over [enumerate(questions)]. *)
Definition grade_question (worlds : nat -> world) (model : string)
    (answers : list pyval) (i : nat) (q : pyval) : result PerQuestion :=
  let* qtype := _question_type q in
  let a := match nth_error answers i with Some x => x | None => PNone end in
  if String.eqb qtype "essay" then grade_essay_question (worlds i) model q a
  else grade_mc_question q a.

Fixpoint grade_questions (worlds : nat -> world) (model : string)
    (answers : list pyval) (i : nat) (questions : list pyval)
  : result (list PerQuestion) :=
  match questions with
  | [] => ret []
  | q :: rest =>
      let* r := grade_question worlds model answers i q in
      let* rs := grade_questions worlds model answers (S i) rest in
      ret (r :: rs)
  end.

Definition sum_awarded (rs : list PerQuestion) : Z :=
  fold_right (fun r acc => awarded r + acc) 0 rs.

Definition sum_max_points (rs : list PerQuestion) : Z :=
  fold_right (fun r acc => q_max_points r + acc) 0 rs.

(** [grade_quiz(quiz, answers)]; [worlds i] is what the essay grader meets
    when it is called for the question of index [i]. *)
Definition grade_quiz (worlds : nat -> world) (model : string) (quiz : pyval)
    (answers : list pyval) : result QuizScore :=
  let* qs := get quiz "questions" (PList []) in
  let* questions := iter qs in
  let* rs := grade_questions worlds model answers 0 questions in
  let score_points := sum_awarded rs in
  let total_points := sum_max_points rs in
  ret {| score := score_points;
         total := total_points;
         percent := if total_points =? 0 then PercentZero
                    else PercentOf score_points total_points;
         per_question := rs |}.

End Grader.

(* ===================================================================== *)
(** * The statements of the specification                                 *)
(* ===================================================================== *)

Module Spec.
Import Text Num Py EssayGrader Grader.

(** The entry [k] of a dictionary, [default] when there is none. *)
Definition field_or (c : pyval) (k : string) (default : pyval) : pyval :=
  match c with
  | PDict kvs =>
      match dict_get kvs k with
      | Some x => x
      | None => default
      end
  | _ => default
  end.

Definition field (c : pyval) (k : string) : pyval := field_or c k PNone.

Definition all_dicts (coverage : list pyval) : Prop :=
  Forall (fun c => is_dict c = true) coverage.

(** ** Deduction synthesis (section 4.5) *)

Definition is_addressed (c : pyval) : bool := truthy (field c "addressed").

Definition unaddressed (coverage : list pyval) : list pyval :=
  filter (fun c => negb (is_addressed c)) coverage.


Definition missing_requirement_entry (c : pyval) (points : Z) : Deduction :=
  {| d_reason := MissingRequirement (field_or c "requirement" (PStr ""));
     d_points := points;
     d_requirement := Some (field c "requirement");
     d_evidence := Some (field c "evidence");
     d_category := Some (PStr "missing_requirement") |}.

(** ** Coverage to grade (section 4.7) *)

Definition addressed_count (coverage : list pyval) : nat :=
  List.length (filter is_addressed coverage).

(** [round(max_points * (addressed_count / total_coverage_items))], clamped
    to [[0, max_points]]; 0 for an empty coverage. *)
Definition spec_coverage_grade (coverage : list pyval) (max_points : Z) : result Z :=
  match coverage with
  | [] => ret 0
  | _ :: _ =>
      let* m := float_of_int max_points in
      let ratio := count_truediv (addressed_count coverage) (List.length coverage) in
      let* r := round_float (fmul m ratio) in
      ret (Z.max 0 (Z.min max_points r))
  end.

(** ** Coverage analysis (section 4.1) *)

Fixpoint all_chars (p : ascii -> bool) (s : string) : bool :=
  match s with
  | EmptyString => true
  | String c s' => (p c && all_chars p s')%bool
  end.







(** ** The orchestrator (section 4.6) *)

(** The precondition as the source checks it: a [str] with something else
    than blanks. *)
Definition valid_essay (essay : pyval) : bool :=
  match essay with
  | PStr s => negb (is_empty (strip s))
  | _ => false
  end.


Definition valid_requirements (requirements : pyval) : bool :=
  match list_of_str requirements with
  | Some _ => true
  | None => false
  end.


(** The deductions of a result explain the lost points, or exceed them by
    what the model listed: then the list ends with a reconciliation entry
    of 0 points. *)
Definition reconciled (r : GradeResult) : Prop :=
  let lost := max_points r - grade r in
  sum_points (deductions r) = lost
  \/ exists kept,
       deductions r = (kept ++ [reconciliation_deduction (sum_points kept) lost])%list
       /\ lost < sum_points kept
       /\ sum_points (deductions r) = sum_points kept.

(** The result does not come from a parsed answer of the model. *)
Definition synthesized (r : GradeResult) : Prop :=
  forall v, raw_response r <> Some (RawJson v).

(** ** Similarity (section 4.2) *)

Definition dot_product (v1 v2 : list float) : float := float_sum (products v1 v2).

Definition magnitude (v : list float) : float :=
  SFsqrt prec emax (float_sum (products v v)).

(** The sign [math.sqrt] accepts. *)
Definition sign_ok (f : float) : bool :=
  match f with
  | S754_finite true _ _ | S754_infinity true => false
  | _ => true
  end.

(** ** The aggregator (section 4.8) *)

(** The answer as an integer, when it is one. *)
Definition int_answer (a : option pyval) : option Z :=
  match a with
  | Some (PInt z) => Some z
  | Some (PBool b) => Some (int_of_bool b)
  | _ => None
  end.

(** An essay answer that is missing, [None], empty or blank. *)
Definition blank_answer (a : option pyval) : Prop :=
  match a with
  | None => True
  | Some PNone => True
  | Some (PStr s) => is_empty (strip s) = true
  | Some _ => False
  end.

(** The extra point of the item of index [idx]. *)
Definition extra (remainder : Z) (idx : nat) : Z :=
  if Z.of_nat idx <? remainder then 1 else 0.


(** For [n] tokens: the test [matches / n >= 0.5] and the test
    [n <= 2 * matches] agree for every number of matches. *)
Definition half_test_agrees (n : nat) : bool :=
  forallb (fun m => Bool.eqb (SFleb fhalf (count_truediv m n)) (Nat.leb n (2 * m)))
          (seq 0 (S n)).

(** Coverage lists with [a] addressed items among [n]. *)
Definition coverage_of_counts (a n : nat) : list pyval :=
  (repeat (coverage_item "r" true "...") a
   ++ repeat (coverage_item "r" false "") (n - a))%list.

(** For [n] items: the formula of the specification has a value and the
    source returns it, for every number of addressed items. *)
Definition scale_agrees (max_points : Z) (n : nat) : bool :=
  forallb (fun a =>
             match spec_coverage_grade (coverage_of_counts a n) max_points,
                   _coverage_to_grade (coverage_of_counts a n) max_points with
             | inr x, inr y => x =? y
             | _, _ => false
             end)
          (seq 0 (S n)).

End Spec.

(* ===================================================================== *)
(** * Sample inputs                                                       *)
(* ===================================================================== *)

Module Samples.
Import Text Num Py EssayGrader Grader.

Definition refused : pyexn :=
  Raised "URLError" "<urlopen error [Errno 111] Connection refused>".

(** No service answers. *)
Definition offline : world :=
  {| embedding_essay := inl refused;
     embedding_ideal := inl refused;
     generate := inl refused;
     json_loads := fun _ => None |}.

(** The embeddings are refused; the generation answers a text that decodes
    to [v]. *)
Definition answering (v : pyval) : world :=
  {| embedding_essay := inl refused;
     embedding_ideal := inl refused;
     generate := inr "{}";
     json_loads := fun _ => Some v |}.

(** The embeddings are [v1] and [v2]; the generation is refused. *)
Definition embedded (v1 v2 : list float) : world :=
  {| embedding_essay := inr v1;
     embedding_ideal := inr v2;
     generate := inl refused;
     json_loads := fun _ => None |}.

(** [1.0] and [2.0] *)
Definition fone : float := S754_finite false 4503599627370496 (-52).
Definition ftwo : float := S754_finite false 4503599627370496 (-51).

(** An answer whose deductions exceed the points its grade leaves. *)
Definition overcharged : pyval :=
  PDict [("grade", PInt 90);
         ("deductions",
          PList [PDict [("reason", PStr "Off topic"); ("points", PInt 50)]])].


Definition photosynthesis_essay : pyval :=
  PStr "Photosynthesis is how plants make food. It uses light.".

Definition two_requirements : pyval :=
  PList [PStr "Mentions photosynthesis"; PStr "Mentions respiration"].

Definition mc_question : pyval :=
  PDict [("text", PStr "2 + 2 = ?");
         ("options", PList [PStr "3"; PStr "4"]);
         ("correct_index", PInt 1);
         ("points", PInt 2)].

Definition essay_question : pyval :=
  PDict [("type", PStr "essay");
         ("text", PStr "Explain photosynthesis.");
         ("requirements", PList [PStr "Mentions photosynthesis"]);
         ("max_points", PInt 10)].

Definition sample_quiz : pyval :=
  PDict [("questions", PList [mc_question; essay_question])].

End Samples.

(* ===================================================================== *)
(** * Further statements about the results                                *)
(* ===================================================================== *)

Module Results.
Import Text Num Py EssayGrader Spec.

Definition non_negative (ds : list Deduction) : Prop :=
  Forall (fun d => 0 <= d_points d) ds.


(** No item of the coverage is addressed. *)
Definition none_addressed (coverage : list pyval) : Prop :=
  Forall (fun c => is_addressed c = false) coverage.

End Results.

(* ===================================================================== *)
(** * Statements about the salvage of a JSON object                       *)
(* ===================================================================== *)

Module Salvage.
Import Text Py EssayGrader Spec.

Definition is_open (c : ascii) : bool := N.eqb (code c) 123.
Definition is_close (c : ascii) : bool := N.eqb (code c) 125.

(** The nesting depth after one more character. *)
Definition step (d : Z) (c : ascii) : Z :=
  if is_open c then d + 1 else if is_close c then d - 1 else d.

Fixpoint depth_after (d : Z) (s : string) : Z :=
  match s with
  | EmptyString => d
  | String c s' => depth_after (step d c) s'
  end.

(** Opening braces minus closing braces. *)
Definition net_depth (s : string) : Z := depth_after 0 s.

Definition no_open (s : string) : bool := all_chars (fun c => negb (is_open c)) s.

(** [m] opens with a brace and its braces close at its last character and
    not before. *)
Definition first_closed (m : string) : Prop :=
  match head m with Some c => is_open c | None => false end = true
  /\ net_depth m = 0
  /\ forall p q, m = (p ++ q)%string -> p <> EmptyString -> q <> EmptyString ->
                 0 < net_depth p.

End Salvage.

(* ===================================================================== *)
(** * Statements about the quiz score                                     *)
(* ===================================================================== *)

Module Scores.
Import Text Num Py EssayGrader Grader Spec.

(** A decoder that accepts the empty object only. *)
Definition decoding_empty_object : world :=
  {| embedding_essay := inr [];
     embedding_ideal := inr [];
     generate := inr "Here you are: {} I hope it helps";
     json_loads := fun s => if String.eqb s "{}" then Some (PDict []) else None |}.




(** [answers[i] if i < len(answers) else None] *)
Definition answer_at (answers : list pyval) (i : nat) : pyval :=
  match nth_error answers i with
  | Some x => x
  | None => PNone
  end.

End Scores.

(* ===================================================================== *)
(** * Statements about the evidence                                       *)
(* ===================================================================== *)

Module Evidence.
Import Text Py EssayGrader Spec.




End Evidence.

(* ===================================================================== *)
(** * app.py: the answers of a submission                                 *)
(* ===================================================================== *)

Module App.
Import Text Num Py EssayGrader Grader.

(** [request.form.get(f'q_{idx}')], by the index of the question. *)
Definition form : Type := nat -> option string.

(** [(q.get('type') or 'mc').lower()] *)
Definition form_type (q : pyval) : result string :=
  let* t0 := get q "type" PNone in
  match py_or t0 (PStr "mc") with
  | PStr s => ret (lower s)
  | v => raise (AttributeError v "lower")
  end.

(** One turn of the loop of [submit_quiz] that reads the answers. *)
Definition collect_answer (f : form) (idx : nat) (q : pyval) : result pyval :=
  let* qtype := form_type q in
  let a := f idx in
  if String.eqb qtype "essay" then
    ret (PStr (strip (match a with Some s => s | None => EmptyString end)))
  else
    match a with
    | None => ret PNone
    | Some s =>
        match py_int (PStr s) with
        | inr z => ret (PInt z)
        | inl _ => ret PNone
        end
    end.

Fixpoint collect_answers (f : form) (idx : nat) (questions : list pyval)
  : result (list pyval) :=
  match questions with
  | [] => ret []
  | q :: rest =>
      let* a := collect_answer f idx q in
      let* tl := collect_answers f (S idx) rest in
      ret (a :: tl)
  end.

(** [quiz['questions']] *)
Definition questions_of (quiz : pyval) : result pyval :=
  match quiz with
  | PDict kvs =>
      match dict_get kvs "questions" with
      | Some qs => ret qs
      | None => raise (Raised "KeyError" "'questions'")
      end
  | v => raise (TypeError v)
  end.

(** The part of [submit_quiz] between the loaded quiz and the score: the
    answers are read from the form, then the quiz is graded. *)
Definition submit_grade (worlds : nat -> world) (model : string) (f : form)
    (quiz : pyval) : result QuizScore :=
  let* qs := questions_of quiz in
  let* questions := iter qs in
  let* answers := collect_answers f 0 questions in
  grade_quiz worlds model quiz answers.

(** A form for the two questions of the sample quiz. *)
Definition sample_form : form :=
  fun idx =>
    match idx with
    | O => Some " 1 "
    | S O => Some "Photosynthesis makes sugar. It uses light."
    | _ => None
    end.

End App.

(* ===================================================================== *)
(** * app.py: the questions the wizard builds                             *)
(* ===================================================================== *)

Module Wizard.
Import Text Num Py EssayGrader Grader Spec.

(** The fields of the form for the question of one index:
    [q_type_i], [q_text_i] and so on, as [request.form.get] gives them. *)
Record question_fields : Type := {
  f_type : option string;
  f_text : option string;
  f_requirements : option string;
  f_max_points : option string;
  f_options : option string;
  f_correct : option string;
  f_points : option string
}.

(** [v or d] for an optional text. *)
Definition text_or (v : option string) (d : string) : string :=
  match v with
  | Some (String c s) => String c s
  | _ => d
  end.

(** [(request.form.get(key) or '').strip()] *)
Definition stripped (v : option string) : string := strip (text_or v EmptyString).

Definition carriage_return : ascii := ascii_of_N 13.
Definition semicolon : ascii := ascii_of_N 59.
Definition comma : ascii := ascii_of_N 44.

(** [s.replace(a, b)] for two characters. *)
Fixpoint replace_char (a b : ascii) (s : string) : string :=
  match s with
  | EmptyString => EmptyString
  | String c s' => String (if Ascii.eqb c a then b else c) (replace_char a b s')
  end.

(** [s.replace(a, '')] for a character. *)
Fixpoint remove_char (a : ascii) (s : string) : string :=
  match s with
  | EmptyString => EmptyString
  | String c s' => if Ascii.eqb c a then remove_char a s' else String c (remove_char a s')
  end.

(** [s.split(sep)] for a character; [piece] is the piece being read. *)
Fixpoint split_char_from (sep : ascii) (piece : string) (s : string) : list string :=
  match s with
  | EmptyString => [piece]
  | String c s' =>
      if Ascii.eqb c sep then piece :: split_char_from sep EmptyString s'
      else split_char_from sep (snoc piece c) s'
  end.

Definition split_char (sep : ascii) (s : string) : list string :=
  split_char_from sep EmptyString s.

(** [s.split('\n\n')]: the separators are found from left to right and do
    not overlap. *)
Fixpoint split_blank_line_from (piece : string) (s : string) : list string :=
  match s with
  | EmptyString => [piece]
  | String c s' =>
      match s' with
      | String c' s'' =>
          if (is_newline c && is_newline c')%bool
          then piece :: split_blank_line_from EmptyString s''
          else split_blank_line_from (snoc piece c) s'
      | EmptyString => [snoc piece c]
      end
  end.

Definition split_blank_line (s : string) : list string :=
  split_blank_line_from EmptyString s.

(** [[r.strip() for r in l if r.strip()]] *)
Definition stripped_pieces (l : list string) : list string :=
  map strip (filter (fun r => negb (is_empty (strip r))) l).

(** [int(raw) if raw else d], with [d] on a [ValueError]; then [d] again
    when the number is not positive. *)
Definition points_or (raw : string) (d : Z) : Z :=
  let p :=
    if is_empty raw then d
    else match int_literal raw with
         | Some z => z
         | None => d
         end in
  if p <=? 0 then d else p.

(** How the handler leaves a question: the dict it appends, or the message
    it flashes before it redirects. *)
Inductive outcome (A : Type) : Type :=
| Built (a : A)
| Flash (message : string).

Arguments Built {A} a.
Arguments Flash {A} message.

Definition build_essay (text : string) (f : question_fields) : outcome pyval :=
  let reqs_raw := stripped (f_requirements f) in
  let max_pts_raw := stripped (f_max_points f) in
  let requirements :=
    stripped_pieces (split_blank_line (remove_char carriage_return reqs_raw)) in
  match requirements with
  | [] => Flash "Essay questions must include at least one requirement."
  | _ =>
      let max_points := points_or max_pts_raw 10 in
      Built (PDict [("type", PStr "essay");
                    ("text", PStr text);
                    ("requirements", PList (map PStr requirements));
                    ("max_points", PInt max_points)])
  end.

Definition build_mc (text : string) (f : question_fields) : outcome pyval :=
  let options_raw := stripped (f_options f) in
  let correct_raw := stripped (f_correct f) in
  let points_raw := stripped (f_points f) in
  if is_empty options_raw
  then Flash "Multiple choice questions must include options."
  else
    let temp := replace_char carriage_return newline options_raw in
    let temp := replace_char comma newline (replace_char semicolon newline temp) in
    let opts := stripped_pieces (split_char newline temp) in
    if (List.length opts <? 2)%nat
    then Flash "Each multiple choice question must have at least two options."
    else
      match int_literal correct_raw with
      | None =>
          Flash "Correct option number must be a number for each multiple choice question."
      | Some correct_num =>
          if ((correct_num <? 1) || (Z.of_nat (List.length opts) <? correct_num))%bool
          then Flash "Correct option number must be between 1 and the number of options."
          else
            let points := points_or points_raw 1 in
            Built (PDict [("type", PStr "mc");
                          ("text", PStr text);
                          ("options", PList (map PStr opts));
                          ("correct_index", PInt (correct_num - 1));
                          ("points", PInt points)])
      end.

(** One turn of the loop of step 2 of [teacher_create]. *)
Definition build_question (f : question_fields) : outcome pyval :=
  let qtype := lower (strip (text_or (f_type f) "mc")) in
  let text := stripped (f_text f) in
  if is_empty text then Flash "Each question must have text."
  else if String.eqb qtype "essay" then build_essay text f
  else build_mc text f.

(** The loop over [range(num_questions)], from the index [i] with [n] turns
    left: the first message ends it. *)
Fixpoint build_questions (form : nat -> question_fields) (i n : nat)
  : outcome (list pyval) :=
  match n with
  | O => Built []
  | S n' =>
      match build_question (form i) with
      | Flash m => Flash m
      | Built q =>
          match build_questions form (S i) n' with
          | Flash m => Flash m
          | Built qs => Built (q :: qs)
          end
      end
  end.

(** An essay question as the grader needs it. *)
Definition essay_well_formed (q : pyval) : Prop :=
  _question_type q = inr "essay"
  /\ valid_requirements (field q "requirements") = true
  /\ (exists rs, field q "requirements" = PList (map PStr rs)
                 /\ rs <> []
                 /\ Forall (fun r => is_empty r = false) rs)
  /\ 1 <= _points_for_essay q
  /\ field q "max_points" = PInt (_points_for_essay q).

(** A choice question as the grader needs it. *)
Definition mc_well_formed (q : pyval) : Prop :=
  _question_type q = inr "mc"
  /\ (exists opts c,
        field q "options" = PList (map PStr opts)
        /\ (2 <= List.length opts)%nat
        /\ Forall (fun o => is_empty o = false) opts
        /\ field q "correct_index" = PInt c
        /\ 0 <= c < Z.of_nat (List.length opts))
  /\ 1 <= _points_for_mc q
  /\ field q "points" = PInt (_points_for_mc q).

Definition well_formed (q : pyval) : Prop :=
  essay_well_formed q \/ mc_well_formed q.

(** The fields of a choice question and of an essay question. *)
Definition choice_fields : question_fields :=
  {| f_type := None;
     f_text := Some "2 + 2 = ?";
     f_requirements := None;
     f_max_points := None;
     f_options := Some "3, 4; 5";
     f_correct := Some "2";
     f_points := Some "two" |}.

Definition essay_fields : question_fields :=
  {| f_type := Some " Essay";
     f_text := Some "Explain photosynthesis.";
     f_requirements :=
       Some ("Mentions photosynthesis"
               ++ String newline (String newline "Mentions light"));
     f_max_points := Some "-3";
     f_options := None;
     f_correct := None;
     f_points := None |}.

Definition sample_wizard_form (i : nat) : question_fields :=
  match i with
  | O => choice_fields
  | _ => essay_fields
  end.

End Wizard.

(* ===================================================================== *)
(** * Rounding and comparison of floats                                   *)
(* ===================================================================== *)

Module NumFacts.
Import Num.

Lemma round_half_even_div_bounds n d :
  0 < d -> n / d <= round_half_even_div n d <= n / d + 1.
Proof.
  intros Hd. unfold round_half_even_div.
  destruct (Z.compare (2 * (n mod d)) d); [destruct (Z.even (n / d)) | | ]; lia.
Qed.

Lemma round_half_even_div_le n d z :
  0 < d -> n <= z * d -> round_half_even_div n d <= z.
Proof.
  intros Hd Hn.
  pose proof (Z.div_mod n d ltac:(lia)) as Hdm.
  pose proof (Z.mod_pos_bound n d Hd) as Hr.
  assert (Hq : n / d <= z) by (apply Z.div_le_upper_bound; lia).
  destruct (Z.eq_dec (n / d) z) as [Heq | Hne].
  - assert (Hr0 : n mod d = 0) by nia.
    unfold round_half_even_div. rewrite Hr0.
    replace (2 * 0 ?= d) with Lt by (symmetry; apply Z.compare_lt_iff; lia).
    lia.
  - pose proof (round_half_even_div_bounds n d Hd). lia.
Qed.

Lemma round_half_even_div_ge n d z :
  0 < d -> z * d <= n -> z <= round_half_even_div n d.
Proof.
  intros Hd Hn.
  assert (Hq : z <= n / d) by (apply Z.div_le_lower_bound; lia).
  pose proof (round_half_even_div_bounds n d Hd). lia.
Qed.

Lemma pow2_pos e : 0 < 2 ^ e \/ e < 0.
Proof.
  destruct (Z_lt_le_dec e 0); [right; lia | left; apply Z.pow_pos_nonneg; lia].
Qed.

(** A float below an integer rounds to at most that integer. *)
Lemma round_float_le f z c r :
  compare_float_int f z = Some c -> c <> Gt ->
  round_float f = inr r -> r <= z.
Proof.
  destruct f as [s | s | | s m e];
    unfold compare_float_int, round_float, raise, ret;
    try discriminate.
  - intros H Hc Hr. inversion H; subst c. inversion Hr; subst r.
    destruct (Z.compare_spec 0 z); try lia. congruence.
  - remember (signed_mantissa (S754_finite s m e)) as n eqn:Hn. clear Hn.
    destruct (Z.leb_spec 0 e) as [He | He]; intros H Hc Hr;
      inversion H; subst c; inversion Hr; subst r; clear H Hr.
    + destruct (Z.compare_spec (n * 2 ^ e) z); try lia. congruence.
    + apply round_half_even_div_le.
      * apply Z.pow_pos_nonneg; lia.
      * destruct (Z.compare_spec n (z * 2 ^ (- e))); try lia. congruence.
Qed.

(** A float above an integer rounds to at least that integer. *)
Lemma round_float_ge f z c r :
  compare_float_int f z = Some c -> c <> Lt ->
  round_float f = inr r -> z <= r.
Proof.
  destruct f as [s | s | | s m e];
    unfold compare_float_int, round_float, raise, ret;
    try discriminate.
  - intros H Hc Hr. inversion H; subst c. inversion Hr; subst r.
    destruct (Z.compare_spec 0 z); try lia. congruence.
  - remember (signed_mantissa (S754_finite s m e)) as n eqn:Hn. clear Hn.
    destruct (Z.leb_spec 0 e) as [He | He]; intros H Hc Hr;
      inversion H; subst c; inversion Hr; subst r; clear H Hr.
    + destruct (Z.compare_spec (n * 2 ^ e) z); try lia. congruence.
    + apply round_half_even_div_ge.
      * apply Z.pow_pos_nonneg; lia.
      * destruct (Z.compare_spec n (z * 2 ^ (- e))); try lia. congruence.
Qed.

(** A float strictly between two integers is finite: [round] returns. *)
Lemma round_float_returns f lo hi :
  compare_float_int f lo = Some Gt -> compare_float_int f hi = Some Lt ->
  exists r, round_float f = inr r.
Proof.
  destruct f as [s | s | | s m e]; simpl; try discriminate.
  - eauto.
  - destruct s; discriminate.
  - destruct (0 <=? e); eauto.
Qed.

Lemma round_float_finite f :
  is_finite f = true -> exists r, round_float f = inr r.
Proof.
  destruct f as [s | s | | s m e]; simpl; try discriminate; eauto.
  destruct (0 <=? e); eauto.
Qed.

Lemma compare_float_int_finite f z :
  is_finite f = true -> exists c, compare_float_int f z = Some c.
Proof.
  destruct f as [s | s | | s m e]; simpl; try discriminate; eauto.
  destruct (0 <=? e); eauto.
Qed.

Lemma py_max_zero_float x :
  py_max (NInt 0) (NFloat x) =
  match compare_float_int x 0 with
  | Some Gt => NFloat x
  | _ => NInt 0
  end.
Proof.
  unfold py_max, num_lt.
  destruct (compare_float_int x 0) as [[ | | ] | ]; reflexivity.
Qed.

Lemma py_min_int_float m x :
  py_min (NInt m) (NFloat x) =
  match compare_float_int x m with
  | Some Lt => NFloat x
  | _ => NInt m
  end.
Proof.
  unfold py_min, num_lt.
  destruct (compare_float_int x m) as [[ | | ] | ]; reflexivity.
Qed.

Lemma py_min_int_zero m : 0 <= m -> py_round (py_min (NInt m) (NInt 0)) = inr 0.
Proof.
  intros Hm. unfold py_min, num_lt.
  destruct (Z.ltb_spec 0 m); simpl; unfold ret; f_equal; lia.
Qed.

(** The clamp of the source, [round(min(m, max(0, x)))], is the clamp of the
    rounded value whenever that value exists. *)
Lemma round_clamp x m r :
  0 < m -> round_float x = inr r ->
  py_round (py_min (NInt m) (py_max (NInt 0) (NFloat x))) = inr (Z.max 0 (Z.min m r)).
Proof.
  intros Hm Hr.
  assert (Hfin : is_finite x = true)
    by (destruct x; simpl in *; try discriminate; reflexivity).
  destruct (compare_float_int_finite x 0 Hfin) as [c0 Hc0].
  destruct (compare_float_int_finite x m Hfin) as [cm Hcm].
  assert (H0 : c0 <> Gt -> r <= 0) by (intro; eapply round_float_le; eauto).
  assert (H1 : c0 <> Lt -> 0 <= r) by (intro; eapply round_float_ge; eauto).
  assert (H2 : cm <> Gt -> r <= m) by (intro; eapply round_float_le; eauto).
  assert (H3 : cm <> Lt -> m <= r) by (intro; eapply round_float_ge; eauto).
  rewrite py_max_zero_float, Hc0.
  destruct c0.
  - rewrite py_min_int_zero by lia. f_equal.
    assert (r <= 0) by (apply H0; discriminate).
    assert (0 <= r) by (apply H1; discriminate). lia.
  - rewrite py_min_int_zero by lia. f_equal.
    assert (r <= 0) by (apply H0; discriminate). lia.
  - rewrite py_min_int_float, Hcm.
    assert (0 <= r) by (apply H1; discriminate).
    destruct cm; cbn [py_round]; unfold ret.
    + f_equal.
      assert (r <= m) by (apply H2; discriminate).
      assert (m <= r) by (apply H3; discriminate). lia.
    + rewrite Hr. f_equal.
      assert (r <= m) by (apply H2; discriminate). lia.
    + f_equal.
      assert (m <= r) by (apply H3; discriminate). lia.
Qed.

(** Whatever the float, the clamp of the source returns a value in range. *)
Lemma clamp_in_range x m :
  0 <= m ->
  exists r, py_round (py_min (NInt m) (py_max (NInt 0) (NFloat x))) = inr r
            /\ 0 <= r <= m.
Proof.
  intros Hm. rewrite py_max_zero_float.
  destruct (compare_float_int x 0) as [[ | | ] | ] eqn:Hc0;
    try (rewrite py_min_int_zero by lia; exists 0; split; [reflexivity | lia]).
  rewrite py_min_int_float.
  destruct (compare_float_int x m) as [[ | | ] | ] eqn:Hcm;
    try (exists m; split; [reflexivity | lia]).
  cbn [py_round].
  destruct (round_float_returns x 0 m Hc0 Hcm) as [r Hr].
  exists r. split; [exact Hr | ]. split.
  - eapply round_float_ge; eauto. discriminate.
  - eapply round_float_le; eauto. discriminate.
Qed.

(** The clamp of the source never raises. *)
Lemma clamp_returns x m :
  exists r, py_round (py_min (NInt m) (py_max (NInt 0) (NFloat x))) = inr r.
Proof.
  rewrite py_max_zero_float.
  assert (Hz : exists r, py_round (py_min (NInt m) (NInt 0)) = inr r).
  { unfold py_min, num_lt. destruct (0 <? m); eexists; reflexivity. }
  destruct (compare_float_int x 0) as [[ | | ] | ] eqn:Hc0; try exact Hz.
  rewrite py_min_int_float.
  destruct (compare_float_int x m) as [[ | | ] | ] eqn:Hcm;
    try (exists m; reflexivity).
  cbn [py_round]. exact (round_float_returns x 0 m Hc0 Hcm).
Qed.

Lemma fmul_comm x y : fmul x y = fmul y x.
Proof.
  unfold fmul.
  destruct x as [sx | sx | | sx mx ex], y as [sy | sy | | sy my ey]; simpl;
    try reflexivity; try (rewrite (xorb_comm sx sy); reflexivity).
  rewrite (xorb_comm sx sy), (Pos.mul_comm mx my), (Z.add_comm ex ey). reflexivity.
Qed.

End NumFacts.

(* ===================================================================== *)
(** * Deduction synthesis and reconciliation                              *)
(* ===================================================================== *)

Module DeductionFacts.
Import Text Num Py EssayGrader Spec.

Lemma bind_inr {A B} (m : result A) (k : A -> result B) b :
  bind m k = inr b -> exists a, m = inr a /\ k a = inr b.
Proof.
  destruct m as [e | a]; simpl; [discriminate | eauto].
Qed.

Lemma get_dict c k d : is_dict c = true -> get c k d = inr (field_or c k d).
Proof.
  destruct c; simpl; try discriminate. intros _.
  destruct (dict_get kvs k); reflexivity.
Qed.


Lemma missed_items_dicts coverage :
  all_dicts coverage -> missed_items coverage = inr (unaddressed coverage).
Proof.
  induction 1 as [ | c cs Hc Hcs IH]; [reflexivity | ].
  simpl. rewrite (get_dict c "addressed" PNone Hc). simpl. rewrite IH. simpl.
  unfold is_addressed, field. destruct (truthy (field_or c "addressed" PNone)); reflexivity.
Qed.

Lemma unaddressed_dicts coverage : all_dicts coverage -> all_dicts (unaddressed coverage).
Proof.
  unfold all_dicts, unaddressed. intros H. apply Forall_forall.
  intros c Hc. apply filter_In in Hc. destruct Hc as [Hc _].
  rewrite Forall_forall in H. auto.
Qed.

Lemma missing_deduction_dict base remainder idx c :
  is_dict c = true ->
  missing_deduction base remainder idx c =
  inr (missing_requirement_entry c (base + extra remainder idx)).
Proof.
  intros Hc. unfold missing_deduction.
  rewrite !(get_dict c _ _ Hc). reflexivity.
Qed.

Lemma missing_deduction_points base remainder idx c d :
  missing_deduction base remainder idx c = inr d ->
  d_points d = base + extra remainder idx.
Proof.
  unfold missing_deduction. intros H.
  apply bind_inr in H. destruct H as [r [_ H]].
  apply bind_inr in H. destruct H as [req [_ H]].
  apply bind_inr in H. destruct H as [ev [_ H]].
  inversion H. reflexivity.
Qed.

(** The entries the loop builds, item by item. *)
Lemma missing_deductions_dicts base remainder missed : forall idx,
  all_dicts missed ->
  exists ds,
    missing_deductions base remainder idx missed = inr ds
    /\ List.length ds = List.length missed
    /\ forall i c, nth_error missed i = Some c ->
         nth_error ds i =
         Some (missing_requirement_entry c (base + extra remainder (idx + i))).
Proof.
  induction missed as [ | c cs IH]; intros idx Hall.
  - exists []. repeat split; auto. intros [ | i] c H; discriminate.
  - inversion Hall as [ | ? ? Hc Hcs]; subst.
    destruct (IH (S idx) Hcs) as [ds [Hds [Hlen Hnth]]].
    exists (missing_requirement_entry c (base + extra remainder idx) :: ds).
    simpl. rewrite (missing_deduction_dict _ _ _ _ Hc). simpl. rewrite Hds. simpl.
    repeat split; [congruence | ].
    intros [ | i] c' H; simpl in *.
    + inversion H; subst. rewrite Nat.add_0_r. reflexivity.
    + rewrite (Hnth i c' H). rewrite Nat.add_succ_r. reflexivity.
Qed.

(** The points the loop hands out. *)
Lemma missing_deductions_sum base remainder missed : forall idx ds,
  missing_deductions base remainder idx missed = inr ds ->
  sum_points ds =
  base * Z.of_nat (List.length missed)
  + Z.max 0 (Z.min (remainder - Z.of_nat idx) (Z.of_nat (List.length missed))).
Proof.
  induction missed as [ | c cs IH]; intros idx ds H.
  - inversion H. simpl. lia.
  - simpl in H. apply bind_inr in H. destruct H as [d [Hd H]].
    apply bind_inr in H. destruct H as [tl [Htl H]]. inversion H; subst ds.
    unfold sum_points in *. simpl fold_right. rewrite (IH _ _ Htl).
    rewrite (missing_deduction_points _ _ _ _ _ Hd).
    unfold extra. cbn [List.length]. destruct (Z.ltb_spec (Z.of_nat idx) remainder); lia.
Qed.

(** Whenever the synthesis returns, the points add up to the missing points,
    and so does the reported total. *)
Lemma synthesize_sum grade max_points coverage ds t :
  _synthesize_deductions grade max_points coverage = inr (ds, t) ->
  t = Z.max 0 (max_points - grade) /\ sum_points ds = t.
Proof.
  unfold _synthesize_deductions.
  destruct (Z.eqb_spec (Z.max 0 (max_points - grade)) 0) as [H0 | H0].
  - intros H. inversion H. rewrite H0. split; reflexivity.
  - intros H. apply bind_inr in H. destruct H as [missed [_ H]].
    destruct missed as [ | c cs].
    + inversion H. split; [reflexivity | ]. simpl. lia.
    + apply bind_inr in H. destruct H as [l [Hl H]]. inversion H; subst; clear H.
      split; [reflexivity | ].
      rewrite (missing_deductions_sum _ _ _ _ _ Hl).
      remember (Z.max 0 (max_points - grade)) as missing eqn:Hm.
      remember (Z.of_nat (List.length (c :: cs))) as n eqn:Hn.
      assert (0 < n) by (subst n; simpl; lia).
      pose proof (Z.div_mod missing n ltac:(lia)) as Hdm.
      pose proof (Z.mod_pos_bound missing n ltac:(lia)) as Hr.
      assert (Hrem : missing - missing / n * n = missing mod n) by lia.
      rewrite Hrem. simpl Z.of_nat. lia.
Qed.

(** On dictionaries the synthesis always returns. *)
Lemma synthesize_returns grade max_points coverage :
  all_dicts coverage ->
  exists ds t, _synthesize_deductions grade max_points coverage = inr (ds, t).
Proof.
  intros Hall. unfold _synthesize_deductions.
  destruct (Z.max 0 (max_points - grade) =? 0); [eexists; eexists; reflexivity | ].
  rewrite (missed_items_dicts _ Hall). simpl.
  destruct (unaddressed coverage) as [ | c cs] eqn:Hu; [eexists; eexists; reflexivity | ].
  pose proof (unaddressed_dicts _ Hall) as Hd. rewrite Hu in Hd.
  edestruct (missing_deductions_dicts
               (Z.max 0 (max_points - grade) / Z.of_nat (List.length (c :: cs)))
               (Z.max 0 (max_points - grade)
                - Z.max 0 (max_points - grade) / Z.of_nat (List.length (c :: cs))
                  * Z.of_nat (List.length (c :: cs)))
               (c :: cs) 0 Hd) as [ds [Hds _]].
  rewrite Hds. simpl. eexists; eexists; reflexivity.
Qed.

Lemma sum_points_app ds1 ds2 :
  sum_points (ds1 ++ ds2) = sum_points ds1 + sum_points ds2.
Proof.
  unfold sum_points. induction ds1 as [ | d ds IH]; simpl; [reflexivity | ].
  rewrite IH. lia.
Qed.

(** What the reconciliation branch returns. *)
Lemma reconcile_spec grade max_points l ds t :
  reconcile grade max_points l = (ds, t) ->
  t = max_points - grade
  /\ (sum_points ds = max_points - grade
      \/ (max_points - grade < sum_points (normalize_deductions l)
          /\ sum_points ds = sum_points (normalize_deductions l)
          /\ ds = (normalize_deductions l
                   ++ [reconciliation_deduction
                         (sum_points (normalize_deductions l))
                         (max_points - grade)])%list)).
Proof.
  unfold reconcile.
  destruct (Z.eqb_spec (sum_points (normalize_deductions l)) (max_points - grade))
    as [He | Hne]; simpl; intros H; inversion H; subst; clear H.
  - split; [assumption | left; assumption].
  - split; [reflexivity | ].
    rewrite sum_points_app. unfold sum_points at 2. simpl.
    destruct (Z_lt_le_dec (max_points - grade) (sum_points (normalize_deductions l))).
    + right. repeat split; try assumption. lia.
    + left. lia.
Qed.



End DeductionFacts.

(* ===================================================================== *)
(** * From coverage to grade                                              *)
(* ===================================================================== *)

Module GradeFacts.
Import Text Num Py EssayGrader Spec NumFacts DeductionFacts.

Lemma count_addressed_dicts coverage :
  all_dicts coverage -> count_addressed coverage = inr (addressed_count coverage).
Proof.
  unfold addressed_count.
  induction 1 as [ | c cs Hc Hcs IH]; [reflexivity | ].
  simpl. rewrite (get_dict c "addressed" PNone Hc). simpl. rewrite IH. simpl.
  unfold is_addressed, field.
  destruct (truthy (field_or c "addressed" PNone)); reflexivity.
Qed.

(** Whenever the mapping returns, the grade is in range. *)
Lemma coverage_to_grade_range coverage max_points g :
  0 <= max_points ->
  _coverage_to_grade coverage max_points = inr g -> 0 <= g <= max_points.
Proof.
  intros Hm. unfold _coverage_to_grade.
  destruct coverage as [ | c cs].
  - intros H. inversion H. lia.
  - intros H. apply bind_inr in H. destruct H as [a [_ H]].
    apply bind_inr in H. destruct H as [m [_ H]].
    destruct (clamp_in_range
                (fmul (count_truediv a (List.length (c :: cs))) m) max_points Hm)
      as [r [Hr Hrange]].
    rewrite Hr in H. inversion H; subst. exact Hrange.
Qed.

(** On dictionaries the mapping returns as soon as [max_points] converts. *)
Lemma coverage_to_grade_returns coverage max_points :
  all_dicts coverage ->
  returns (float_of_int max_points) = true ->
  exists g, _coverage_to_grade coverage max_points = inr g.
Proof.
  intros Hall Hf. unfold _coverage_to_grade.
  destruct coverage as [ | c cs]; [eexists; reflexivity | ].
  rewrite (count_addressed_dicts _ Hall). simpl bind.
  destruct (float_of_int max_points) as [e | m]; [discriminate | ]. simpl bind.
  apply clamp_returns.
Qed.

(** On dictionaries the mapping raises only when [max_points] does not
    convert, and then it raises the [OverflowError] of the conversion. *)
Lemma coverage_to_grade_raises coverage max_points e :
  all_dicts coverage ->
  _coverage_to_grade coverage max_points = inl e ->
  float_of_int max_points = inl e.
Proof.
  intros Hall. unfold _coverage_to_grade.
  destruct coverage as [ | c cs]; [discriminate | ].
  rewrite (count_addressed_dicts _ Hall). simpl bind.
  destruct (float_of_int max_points) as [e' | m]; simpl bind.
  - intros H. simpl in H. congruence.
  - intros H. exfalso.
    match type of H with
    | py_round (py_min (NInt ?m) (py_max (NInt 0) (NFloat ?x))) = _ =>
        destruct (clamp_returns x m) as [r Hr]
    end.
    congruence.
Qed.

(** C8. For a coverage list of dictionaries and [max_points > 0]: the
    mapping returns 0 for the empty list; it returns the value of
    [round(max_points * (addressed_count / total))] clamped to
    [[0, max_points]] whenever that expression has a value; and it returns
    a grade of [[0, max_points]] as soon as [max_points] converts to a
    float. *)
Theorem coverage_to_grade_spec coverage max_points :
  0 < max_points ->
  all_dicts coverage ->
  (coverage = [] -> _coverage_to_grade coverage max_points = inr 0)
  /\ (forall g, spec_coverage_grade coverage max_points = inr g ->
                _coverage_to_grade coverage max_points = inr g)
  /\ (returns (float_of_int max_points) = true ->
      exists g, _coverage_to_grade coverage max_points = inr g
                /\ 0 <= g <= max_points).
Proof.
  intros Hm Hall. split; [intros ->; reflexivity | ]. split.
  - intros g. unfold spec_coverage_grade, _coverage_to_grade.
    destruct coverage as [ | c cs]; [auto | ].
    rewrite (count_addressed_dicts _ Hall). simpl bind at 2.
    destruct (float_of_int max_points) as [e | m]; [discriminate | ].
    simpl bind. intros H. apply bind_inr in H. destruct H as [r [Hr H]].
    inversion H; subst g. rewrite fmul_comm.
    apply round_clamp; assumption.
  - intros Hf.
    destruct (coverage_to_grade_returns coverage max_points Hall Hf)
      as [g Hg].
    exists g. split; [exact Hg | ].
    eapply coverage_to_grade_range; [ | exact Hg]. lia.
Qed.

(** On the scale of 100 points that [grade_quiz] uses, and on the default
    scale, the formula has a value for every coverage of up to 40 items. *)
Lemma default_scale_exact : forallb (scale_agrees 100) (seq 1 40) = true.
Proof.
  vm_compute. reflexivity.
Qed.

Lemma coverage_to_grade_spec_witness :
  _coverage_to_grade
    [coverage_item "a" true "..."; coverage_item "b" false ""; coverage_item "c" false ""]
    100 = inr 33.
Proof.
  apply (proj1 (proj2 (coverage_to_grade_spec
           [coverage_item "a" true "..."; coverage_item "b" false "";
            coverage_item "c" false ""] 100
           ltac:(lia) ltac:(repeat constructor)))).
  vm_compute. reflexivity.
Defined.

End GradeFacts.

(* ===================================================================== *)
(** * The coverage analyzer                                               *)
(* ===================================================================== *)

Module CoverageFacts.
Import Text Num Py EssayGrader Spec.

Lemma append_nil_r s : (s ++ EmptyString)%string = s.
Proof.
  induction s as [ | c s IH]; simpl; [reflexivity | rewrite IH; reflexivity].
Qed.

Lemma append_assoc a b c : ((a ++ b) ++ c)%string = (a ++ (b ++ c))%string.
Proof.
  induction a as [ | x a IH]; simpl; [reflexivity | rewrite IH; reflexivity].
Qed.

Lemma snoc_append piece c s : (snoc piece c ++ s)%string = (piece ++ String c s)%string.
Proof.
  unfold snoc. rewrite append_assoc. reflexivity.
Qed.


(** ** Tokens *)





(** ** Whole-word search *)









(** ** One requirement, then all of them *)




(** The items of the heuristic are dictionaries. *)
Lemma heuristic_coverage_dicts essay requirements :
  all_dicts (_heuristic_coverage essay requirements).
Proof.
  unfold _heuristic_coverage, all_dicts.
  induction requirements as [ | req rest IH]; [constructor | ].
  simpl. destruct (is_empty (strip req)); [exact IH | ].
  destruct (_simple_requirement_match (lower essay) (strip req)) as [a ev].
  constructor; [reflexivity | exact IH].
Qed.

(** The comparison of the ratio with [0.5] is the comparison of twice the
    matches with the number of tokens: checked here for every pair of counts
    up to 48 tokens. *)
Lemma half_test_exact : forallb half_test_agrees (seq 1 48) = true.
Proof.
  vm_compute. reflexivity.
Qed.

End CoverageFacts.

(* ===================================================================== *)
(** * The orchestrator                                                    *)
(* ===================================================================== *)

Module OrchestratorFacts.
Import Text Num Py EssayGrader Spec Samples.
Import NumFacts DeductionFacts GradeFacts CoverageFacts.

(** ** The three ways to a result *)

Lemma unparseable_result_inv text rs model mp sim response r :
  unparseable_result text rs model mp sim response = inr r ->
  exists g ds t,
    _coverage_to_grade (_heuristic_coverage text rs) mp = inr g
    /\ _synthesize_deductions g mp (_heuristic_coverage text rs) = inr (ds, t)
    /\ r = {| grade := g;
              reasons := non_json_reasons;
              coverage := _heuristic_coverage text rs;
              backend := "ollama";
              model_used := Some model;
              raw_response := Some (RawText response);
              semantic_similarity := sim;
              domain_analysis := PNone;
              max_points := mp;
              deductions := ds;
              total_deductions := t |}.
Proof.
  unfold unparseable_result. intros H.
  apply bind_inr in H. destruct H as [g [Hg H]].
  apply bind_inr in H. destruct H as [[ds t] [Hs H]].
  inversion H. exists g, ds, t. repeat split; assumption.
Qed.

Lemma fallback_path_inv text rs mp e r :
  fallback_path text rs mp e = inr r ->
  exists g ds t,
    _coverage_to_grade (_heuristic_coverage text rs) mp = inr g
    /\ _synthesize_deductions g mp (_heuristic_coverage text rs) = inr (ds, t)
    /\ r = {| grade := g;
              reasons := [Lit fallback_note; failure_line e];
              coverage := _heuristic_coverage text rs;
              backend := "fallback";
              model_used := None;
              raw_response := None;
              semantic_similarity := None;
              domain_analysis := PNone;
              max_points := mp;
              deductions := ds;
              total_deductions := t |}.
Proof.
  unfold fallback_path. intros H.
  apply bind_inr in H. destruct H as [g [Hg H]].
  apply bind_inr in H. destruct H as [[ds t] [Hs H]].
  inversion H. exists g, ds, t. repeat split; assumption.
Qed.

Lemma parsed_result_inv text rs model mp sim parsed r :
  parsed_result text rs model mp sim parsed = inr r ->
  exists gi cov,
    grade r = Z.max 0 (Z.min mp gi)
    /\ max_points r = mp
    /\ backend r = "ollama"
    /\ model_used r = Some model
    /\ raw_response r = Some (RawJson parsed)
    /\ ((exists l, reconcile (grade r) mp l = (deductions r, total_deductions r))
        \/ _synthesize_deductions (grade r) mp cov
           = inr (deductions r, total_deductions r)).
Proof.
  unfold parsed_result. intros H.
  apply bind_inr in H. destruct H as [g [_ H]].
  apply bind_inr in H. destruct H as [gi [_ H]].
  apply bind_inr in H. destruct H as [reasons0 [_ H]].
  apply bind_inr in H. destruct H as [coverage0 [_ H]].
  apply bind_inr in H. destruct H as [da [_ H]].
  apply bind_inr in H. destruct H as [llm [_ H]].
  apply bind_inr in H. destruct H as [[ds t] [Hd H]].
  apply bind_inr in H. destruct H as [items [_ H]].
  inversion H; subst r; clear H. cbn [grade max_points backend model_used
    raw_response deductions total_deductions].
  exists gi. eexists. repeat split.
  destruct llm as [ | | | | | [ | d l] | ];
    try (right; exact Hd).
  left. exists (d :: l). inversion Hd. reflexivity.
Qed.

(** What holds of a result whose grade comes from the heuristic. *)
Lemma heuristic_result cov mp g ds t :
  0 <= mp ->
  _coverage_to_grade cov mp = inr g ->
  _synthesize_deductions g mp cov = inr (ds, t) ->
  0 <= g <= mp /\ t = mp - g /\ sum_points ds = mp - g.
Proof.
  intros Hm Hg Hs.
  pose proof (coverage_to_grade_range _ _ _ Hm Hg) as Hr.
  destruct (synthesize_sum _ _ _ _ _ Hs) as [Ht Hsum].
  repeat split; lia.
Qed.

(** The inputs [grade_essay] accepts, and what it does with them. *)
Lemma grade_essay_accepts w essay requirements model mp :
  valid_essay essay = true -> valid_requirements requirements = true ->
  exists text rs,
    essay = PStr text /\ list_of_str requirements = Some rs
    /\ grade_essay w essay requirements model mp =
       match model_path w text rs model mp with
       | inr r => inr r
       | inl e => fallback_path text rs mp e
       end.
Proof.
  unfold valid_essay, valid_requirements, grade_essay.
  destruct essay as [ | | | | text | | ]; try discriminate.
  destruct (is_empty (strip text)); [discriminate | ]. intros _.
  destruct (list_of_str requirements) as [rs | ]; [ | discriminate]. intros _.
  exists text, rs. repeat split.
Qed.

Lemma grade_essay_rejects w essay requirements model mp :
  valid_essay essay = false \/ valid_requirements requirements = false ->
  grade_essay w essay requirements model mp = inl essay_error
  \/ grade_essay w essay requirements model mp = inl requirements_error.
Proof.
  unfold valid_essay, valid_requirements, grade_essay.
  destruct essay as [ | | | | text | | ]; auto.
  destruct (is_empty (strip text)); auto.
  destruct (list_of_str requirements) as [rs | ]; auto.
  intros [H | H]; discriminate.
Qed.

Lemma valid_or_not essay requirements :
  (valid_essay essay = true /\ valid_requirements requirements = true)
  \/ (valid_essay essay = false \/ valid_requirements requirements = false).
Proof.
  destruct (valid_essay essay), (valid_requirements requirements); auto.
Qed.

(** A result comes from the model path or from the fallback path. *)
Lemma grade_essay_inr w essay requirements model mp r :
  grade_essay w essay requirements model mp = inr r ->
  exists text rs,
    essay = PStr text /\ list_of_str requirements = Some rs
    /\ (model_path w text rs model mp = inr r
        \/ exists e, model_path w text rs model mp = inl e
                     /\ fallback_path text rs mp e = inr r).
Proof.
  intros H. destruct (valid_or_not essay requirements) as [[He Hr] | Hbad].
  - destruct (grade_essay_accepts w essay requirements model mp He Hr)
      as [text [rs [Hessay [Hrs Heq]]]].
    exists text, rs. repeat split; try assumption.
    rewrite Heq in H. destruct (model_path w text rs model mp) as [e | r'].
    + right. exists e. split; [reflexivity | exact H].
    + left. exact H.
  - destruct (grade_essay_rejects w essay requirements model mp Hbad) as [Hx | Hx];
      rewrite Hx in H; discriminate.
Qed.

Lemma model_path_inr w text rs model mp r :
  model_path w text rs model mp = inr r ->
  (exists sim response, unparseable_result text rs model mp sim response = inr r)
  \/ (exists sim parsed, parsed_result text rs model mp sim parsed = inr r).
Proof.
  unfold model_path. intros H.
  apply bind_inr in H. destruct H as [response [_ H]].
  destruct (_parse_llm_json w response) eqn:Hp;
    try (right; eexists; eexists; exact H).
  left. eexists; eexists; exact H.
Qed.

(** Grade, total and deductions of every result, for [0 <= max_points]. *)
Lemma result_invariants w essay requirements model mp r :
  0 <= mp ->
  grade_essay w essay requirements model mp = inr r ->
  max_points r = mp
  /\ 0 <= grade r <= mp
  /\ total_deductions r = mp - grade r
  /\ reconciled r
  /\ (synthesized r -> sum_points (deductions r) = mp - grade r).
Proof.
  intros Hm H.
  destruct (grade_essay_inr _ _ _ _ _ _ H) as [text [rs [_ [_ Hpath]]]].
  assert (Hheur : forall g ds t reasons backend model raw sim,
    _coverage_to_grade (_heuristic_coverage text rs) mp = inr g ->
    _synthesize_deductions g mp (_heuristic_coverage text rs) = inr (ds, t) ->
    r = {| grade := g; reasons := reasons;
           coverage := _heuristic_coverage text rs;
           backend := backend; model_used := model; raw_response := raw;
           semantic_similarity := sim; domain_analysis := PNone;
           max_points := mp; deductions := ds; total_deductions := t |} ->
    max_points r = mp /\ 0 <= grade r <= mp /\ total_deductions r = mp - grade r
    /\ reconciled r /\ (synthesized r -> sum_points (deductions r) = mp - grade r)).
  { intros g ds t ? ? ? ? ? Hg Hs ->.
    destruct (heuristic_result _ _ _ _ _ Hm Hg Hs) as [Hr [Ht Hsum]].
    unfold reconciled. cbn. repeat split; auto; lia. }
  destruct Hpath as [Hmodel | [e [_ Hfall]]].
  - destruct (model_path_inr _ _ _ _ _ _ Hmodel) as [[sim [resp Hu]] | [sim [parsed Hp]]].
    + destruct (unparseable_result_inv _ _ _ _ _ _ _ Hu) as [g [ds [t [Hg [Hs Hr]]]]].
      eapply Hheur; eauto.
    + destruct (parsed_result_inv _ _ _ _ _ _ _ Hp)
        as [gi [cov [Hgrade [Hmax [_ [_ [Hraw Hded]]]]]]].
      assert (Hrange : 0 <= grade r <= mp) by (rewrite Hgrade; lia).
      split; [exact Hmax | ]. split; [exact Hrange | ].
      destruct Hded as [[l Hrec] | Hsyn].
      * destruct (reconcile_spec _ _ _ _ _ Hrec) as [Ht Hsum].
        split; [exact Ht | ]. split.
        -- unfold reconciled. rewrite Hmax. cbv zeta.
           destruct Hsum as [Heq | [Hlt [Hs Hshape]]]; [left; exact Heq | right].
           exists (normalize_deductions l). repeat split; assumption.
        -- intros Hsynth. exfalso. apply (Hsynth parsed). exact Hraw.
      * destruct (synthesize_sum _ _ _ _ _ Hsyn) as [Ht Hsum].
        split; [lia | ]. split.
        -- unfold reconciled. rewrite Hmax. cbv zeta. left. lia.
        -- intros _. lia.
  - destruct (fallback_path_inv _ _ _ _ _ Hfall) as [g [ds [t [Hg [Hs Hr]]]]].
    eapply Hheur; eauto.
Qed.

(** The fallback path returns as soon as [max_points] converts. *)
Lemma fallback_path_returns text rs mp e :
  returns (float_of_int mp) = true ->
  exists r, fallback_path text rs mp e = inr r.
Proof.
  intros Hf. unfold fallback_path.
  pose proof (heuristic_coverage_dicts text rs) as Hd.
  destruct (coverage_to_grade_returns _ mp Hd Hf) as [g Hg]. rewrite Hg. simpl bind.
  destruct (synthesize_returns g mp _ Hd) as [ds [t Hs]]. rewrite Hs. simpl bind.
  eexists. reflexivity.
Qed.

(** The fallback path raises nothing but the [OverflowError] of the
    conversion of [max_points]. *)
Lemma fallback_path_raises text rs mp e e' :
  fallback_path text rs mp e = inl e' -> float_of_int mp = inl e'.
Proof.
  unfold fallback_path.
  pose proof (heuristic_coverage_dicts text rs) as Hd.
  destruct (_coverage_to_grade (_heuristic_coverage text rs) mp) as [e0 | g] eqn:Hg.
  - simpl. intros H. inversion H; subst e0.
    exact (coverage_to_grade_raises _ _ _ Hd Hg).
  - simpl bind. destruct (synthesize_returns g mp _ Hd) as [ds [t Hs]].
    rewrite Hs. simpl bind. discriminate.
Qed.

(** ** The invariants of a result *)




(** C2. For valid inputs and [max_points > 0], the grade of every result
    lies in [[0, max_points]], whatever the path; and a result there is as
    soon as [max_points] converts to a float. *)
Theorem grade_within_bounds w essay requirements model mp :
  valid_essay essay = true ->
  valid_requirements requirements = true ->
  0 < mp ->
  (forall r, grade_essay w essay requirements model mp = inr r ->
             0 <= grade r <= mp)
  /\ (returns (float_of_int mp) = true ->
      exists r, grade_essay w essay requirements model mp = inr r
                /\ 0 <= grade r <= mp).
Proof.
  intros He Hr Hm.
  assert (Hrange : forall r, grade_essay w essay requirements model mp = inr r ->
                             0 <= grade r <= mp).
  { intros r H. assert (Hm0 : 0 <= mp) by lia.
    destruct (result_invariants _ _ _ _ _ _ Hm0 H) as [_ [Hg _]]. exact Hg. }
  split; [exact Hrange | ]. intros Hf.
  destruct (grade_essay_accepts w essay requirements model mp He Hr)
    as [text [rs [_ [_ Heq]]]].
  assert (Hret : exists r, grade_essay w essay requirements model mp = inr r).
  { rewrite Heq. destruct (model_path w text rs model mp) as [e | r].
    - apply fallback_path_returns. exact Hf.
    - exists r. reflexivity. }
  destruct Hret as [r Hret]. exists r. split; [exact Hret | apply Hrange; exact Hret].
Qed.

Lemma grade_within_bounds_witness :
  exists r,
    grade_essay offline photosynthesis_essay two_requirements
      "qwen2.5:14b-instruct" 100 = inr r
    /\ 0 <= grade r <= 100.
Proof.
  apply (proj2 (grade_within_bounds offline photosynthesis_essay two_requirements
                  "qwen2.5:14b-instruct" 100 eq_refl eq_refl ltac:(lia))).
  vm_compute. reflexivity.
Defined.

(** ** Errors *)




(** ** The fallback *)

Lemma list_of_str_strs rs : list_of_str (PList (map PStr rs)) = Some rs.
Proof.
  simpl. induction rs as [ | s rs IH]; [reflexivity | ].
  simpl. rewrite IH. reflexivity.
Qed.





End OrchestratorFacts.

(* ===================================================================== *)
(** * The similarity estimator                                            *)
(* ===================================================================== *)

Module SimilarityFacts.
Import Text Num Py EssayGrader Spec Samples.

(** ** The sums of squares are never negative *)

Lemma round_aux_sign m e l :
  sign_ok (binary_round_aux prec emax false m e l) = true.
Proof.
  unfold binary_round_aux.
  destruct (shr_fexp prec emax m e l) as [mrs' e'].
  destruct (shr_fexp prec emax _ e' loc_Exact) as [mrs'' e''].
  destruct (shr_m mrs''); try reflexivity.
  destruct (Z.leb e'' (Z.sub emax prec)); reflexivity.
Qed.

Lemma round_sign m e : sign_ok (binary_round prec emax false m e) = true.
Proof.
  unfold binary_round.
  destruct (shl_align m e _) as [mz ez]. apply round_aux_sign.
Qed.

Lemma fmul_self_sign a : sign_ok (fmul a a) = true.
Proof.
  unfold fmul. destruct a as [s | s | | s m e]; simpl; try reflexivity.
  - destruct s; reflexivity.
  - rewrite xorb_nilpotent. apply round_aux_sign.
Qed.

Lemma fadd_sign x y :
  sign_ok x = true -> sign_ok y = true -> sign_ok (fadd x y) = true.
Proof.
  unfold fadd.
  destruct x as [sx | sx | | sx mx ex], y as [sy | sy | | sy my ey];
    simpl; intros Hx Hy; try reflexivity; try assumption;
    try (destruct sx, sy; simpl; try reflexivity; discriminate).
  destruct sx; [discriminate | ]. destruct sy; [discriminate | ].
  simpl. apply round_sign.
Qed.

Lemma products_self_sign v : Forall (fun f => sign_ok f = true) (products v v).
Proof.
  induction v as [ | a v IH]; simpl; constructor; [apply fmul_self_sign | exact IH].
Qed.

Lemma fold_fadd_sign l : forall acc,
  sign_ok acc = true -> Forall (fun f => sign_ok f = true) l ->
  sign_ok (fold_left fadd l acc) = true.
Proof.
  induction l as [ | a l IH]; intros acc Hacc Hl; simpl; [exact Hacc | ].
  inversion Hl; subst. apply IH; [apply fadd_sign; assumption | assumption].
Qed.

Lemma math_sqrt_sign x :
  sign_ok x = true -> math_sqrt x = inr (SFsqrt prec emax x).
Proof.
  destruct x as [s | s | | s m e]; simpl; try reflexivity;
    destruct s; try discriminate; reflexivity.
Qed.

(** [math.sqrt] of a sum of squares returns the magnitude. *)
Lemma magnitude_returns v :
  math_sqrt (float_sum (products v v)) = inr (magnitude v).
Proof.
  unfold magnitude. apply math_sqrt_sign.
  unfold float_sum. apply fold_fadd_sign; [reflexivity | apply products_self_sign].
Qed.

(** ** The cosine and the score *)

Lemma cosine_guard v1 v2 :
  v1 = [] \/ v2 = [] \/ List.length v1 <> List.length v2 ->
  _cosine_similarity v1 v2 = inr fzero.
Proof.
  unfold _cosine_similarity. intros H.
  destruct v1 as [ | a v1]; [reflexivity | ].
  destruct v2 as [ | b v2]; [reflexivity | ].
  destruct H as [H | [H | H]]; try discriminate.
  destruct (Nat.eqb_spec (List.length (a :: v1)) (List.length (b :: v2))) as [He | Hn];
    [contradiction | reflexivity].
Qed.

Lemma cosine_same_length v1 v2 :
  v1 <> [] -> v2 <> [] -> List.length v1 = List.length v2 ->
  _cosine_similarity v1 v2 =
  if (SFeqb (magnitude v1) fzero || SFeqb (magnitude v2) fzero)%bool
  then inr fzero
  else float_truediv (dot_product v1 v2) (fmul (magnitude v1) (magnitude v2)).
Proof.
  intros H1 H2 Hlen. unfold _cosine_similarity.
  destruct v1 as [ | a v1]; [contradiction | ].
  destruct v2 as [ | b v2]; [contradiction | ].
  cbn [is_nil orb]. rewrite Hlen, Nat.eqb_refl. cbn [negb].
  rewrite !magnitude_returns. reflexivity.
Qed.

Lemma score_of_embeddings w v1 v2 :
  embedding_essay w = inr v1 -> embedding_ideal w = inr v2 ->
  _compute_semantic_score w =
  if (is_nil v1 || is_nil v2)%bool then None
  else match _cosine_similarity v1 v2 with
       | inr s => Some s
       | inl _ => None
       end.
Proof.
  intros H1 H2. unfold _compute_semantic_score. rewrite H1, H2. simpl bind.
  destruct (is_nil v1 || is_nil v2)%bool; [reflexivity | ].
  destruct (_cosine_similarity v1 v2); reflexivity.
Qed.

(** C6, as stated, fails: two embeddings of different lengths, and one of
    magnitude zero, give the caller the similarity 0.0 and not null. *)
Lemma mismatch_scores_zero :
  List.length [fone] <> List.length [fone; ftwo]
  /\ _compute_semantic_score (embedded [fone] [fone; ftwo]) = Some fzero
  /\ magnitude [fzero] = fzero
  /\ _compute_semantic_score (embedded [fzero] [fone]) = Some fzero.
Proof.
  repeat split; try discriminate; vm_compute; reflexivity.
Qed.

(** C6, amended. With the embeddings [v1] and [v2]: the similarity is null
    when either is empty; it is 0.0 when both are non-empty and differ in
    length, and when they have the same length and either has magnitude
    zero; otherwise it is the dot product divided by the product of the
    magnitudes, and null when that division raises because the product is
    zero. *)
Theorem similarity_cases w v1 v2 :
  embedding_essay w = inr v1 ->
  embedding_ideal w = inr v2 ->
  (v1 = [] \/ v2 = [] -> _compute_semantic_score w = None)
  /\ (v1 <> [] -> v2 <> [] -> List.length v1 <> List.length v2 ->
      _compute_semantic_score w = Some fzero)
  /\ (v1 <> [] -> v2 <> [] -> List.length v1 = List.length v2 ->
      (SFeqb (magnitude v1) fzero = true \/ SFeqb (magnitude v2) fzero = true ->
       _compute_semantic_score w = Some fzero)
      /\ (SFeqb (magnitude v1) fzero = false ->
          SFeqb (magnitude v2) fzero = false ->
          _compute_semantic_score w =
          if SFeqb (fmul (magnitude v1) (magnitude v2)) fzero then None
          else Some (fdiv_raw (dot_product v1 v2)
                              (fmul (magnitude v1) (magnitude v2))))).
Proof.
  intros H1 H2. rewrite (score_of_embeddings w v1 v2 H1 H2).
  split; [ | split].
  - intros [-> | ->]; [reflexivity | ]. rewrite orb_true_r. reflexivity.
  - intros Hn1 Hn2 Hlen.
    destruct v1 as [ | a v1]; [contradiction | ].
    destruct v2 as [ | b v2]; [contradiction | ].
    cbn [is_nil orb]. rewrite cosine_guard; [reflexivity | auto].
  - intros Hn1 Hn2 Hlen. rewrite (cosine_same_length v1 v2 Hn1 Hn2 Hlen).
    destruct v1 as [ | a v1]; [contradiction | ].
    destruct v2 as [ | b v2]; [contradiction | ].
    cbn [is_nil orb]. split.
    + intros [Hz | Hz]; rewrite Hz; rewrite ?orb_true_r; reflexivity.
    + intros Hz1 Hz2. rewrite Hz1, Hz2. cbn [orb].
      unfold float_truediv.
      destruct (SFeqb (fmul (magnitude (a :: v1)) (magnitude (b :: v2))) fzero);
        reflexivity.
Qed.

Lemma similarity_cases_witness :
  _compute_semantic_score (embedded [fone; ftwo] [fone]) = Some fzero.
Proof.
  apply (proj1 (proj2 (similarity_cases (embedded [fone; ftwo] [fone])
                         [fone; ftwo] [fone] eq_refl eq_refl)));
    discriminate.
Defined.

End SimilarityFacts.

(* ===================================================================== *)
(** * The quiz aggregator                                                 *)
(* ===================================================================== *)

Module GraderFacts.
Import Text Num Py EssayGrader Grader Spec Samples.
Import DeductionFacts.

(** ** The loop over the questions *)

Lemma grade_questions_nth worlds model answers qs : forall i rs,
  grade_questions worlds model answers i qs = inr rs ->
  forall k q, nth_error qs k = Some q ->
    exists r, nth_error rs k = Some r
              /\ grade_question worlds model answers (i + k) q = inr r.
Proof.
  induction qs as [ | q0 qs IH]; intros i rs H k q Hk.
  - destruct k; discriminate.
  - simpl in H. apply bind_inr in H. destruct H as [r0 [Hr0 H]].
    apply bind_inr in H. destruct H as [rs' [Hrs H]]. inversion H; subst rs.
    destruct k as [ | k]; simpl in Hk.
    + inversion Hk; subst q0. exists r0. rewrite Nat.add_0_r. split; auto.
    + destruct (IH (S i) rs' Hrs k q Hk) as [r [Hn Hg]].
      exists r. rewrite Nat.add_succ_r. split; auto.
Qed.


Lemma question_type_dict q t : _question_type q = inr t -> is_dict q = true.
Proof.
  unfold _question_type. destruct q; simpl; try discriminate. reflexivity.
Qed.

Lemma grade_quiz_questions worlds model quiz answers qs :
  get quiz "questions" (PList []) = inr (PList qs) ->
  grade_quiz worlds model quiz answers =
  bind (grade_questions worlds model answers 0 qs)
       (fun rs =>
          ret {| score := sum_awarded rs;
                 total := sum_max_points rs;
                 percent := if sum_max_points rs =? 0 then PercentZero
                            else PercentOf (sum_awarded rs) (sum_max_points rs);
                 per_question := rs |}).
Proof.
  intros H. unfold grade_quiz. rewrite H. reflexivity.
Qed.

(** ** Choice questions *)

(** C9. A choice question with the integer [correct_index] [c] and
    positive points is graded without raising; it is awarded its points
    exactly when the answer is an integer equal to [c], and 0 otherwise, so
    for a missing answer and for one that is not an integer; and this is
    the entry of the question in every score [grade_quiz] returns. *)
Theorem choice_awarded worlds model answers i q c :
  _question_type q = inr "mc" ->
  field q "correct_index" = PInt c ->
  0 < _points_for_mc q ->
  exists r,
    grade_question worlds model answers i q = inr r
    /\ q_type r = "mc"
    /\ q_max_points r = _points_for_mc q
    /\ (awarded r = _points_for_mc q <-> int_answer (nth_error answers i) = Some c)
    /\ (int_answer (nth_error answers i) <> Some c -> awarded r = 0)
    /\ (int_answer (nth_error answers i) = None -> awarded r = 0)
    /\ (forall quiz qs sc,
          get quiz "questions" (PList []) = inr (PList qs) ->
          nth_error qs i = Some q ->
          grade_quiz worlds model quiz answers = inr sc ->
          nth_error (per_question sc) i = Some r).
Proof.
  intros Ht Hci Hp.
  pose proof (question_type_dict q _ Ht) as Hd.
  assert (Hg : exists r,
    grade_question worlds model answers i q = inr r
    /\ q_type r = "mc" /\ q_max_points r = _points_for_mc q
    /\ awarded r = match int_answer (nth_error answers i) with
                   | Some z => if z =? c then _points_for_mc q else 0
                   | None => 0
                   end).
  { unfold grade_question. rewrite Ht. simpl bind. cbn [String.eqb Ascii.eqb].
    change (String.eqb "mc" "essay") with false. cbv iota.
    unfold grade_mc_question.
    rewrite !(get_dict q _ _ Hd). simpl bind.
    unfold field in Hci. rewrite Hci.
    eexists. split; [reflexivity | ]. cbn [q_type q_max_points awarded].
    repeat split.
    destruct (nth_error answers i) as [[ | b | z | f | s | l | kvs] | ];
      simpl; try reflexivity. }
  destruct Hg as [r [Hr [Hty [Hmax Haw]]]].
  exists r. split; [exact Hr | ]. split; [exact Hty | ]. split; [exact Hmax | ].
  assert (Hcases : int_answer (nth_error answers i) <> Some c -> awarded r = 0).
  { intros Hne. rewrite Haw.
    destruct (int_answer (nth_error answers i)) as [z | ]; [ | reflexivity].
    destruct (Z.eqb_spec z c); [subst; contradiction | reflexivity]. }
  split; [ | split; [exact Hcases | split]].
  - split.
    + intros Heq.
      destruct (int_answer (nth_error answers i)) as [z | ] eqn:Hz.
      * destruct (Z.eq_dec z c) as [-> | Hne]; [reflexivity | ].
        rewrite Hcases in Heq by congruence. lia.
      * rewrite Hcases in Heq by discriminate. lia.
    + intros Hz. rewrite Haw, Hz, Z.eqb_refl. reflexivity.
  - intros Hnone. apply Hcases. rewrite Hnone. discriminate.
  - intros quiz qs sc Hq Hnth Hsc.
    rewrite (grade_quiz_questions _ _ _ _ _ Hq) in Hsc.
    apply bind_inr in Hsc. destruct Hsc as [rs [Hrs Hsc]].
    inversion Hsc; subst sc. cbn [per_question].
    destruct (grade_questions_nth _ _ _ _ _ _ Hrs i q Hnth) as [r' [Hr' Hg']].
    simpl in Hg'. congruence.
Qed.

Lemma choice_awarded_witness :
  exists r,
    grade_question (fun _ => offline) "qwen2.5:14b-instruct"
      [PInt 1; PStr "Photosynthesis."] 0 mc_question = inr r
    /\ awarded r = 2.
Proof.
  destruct (choice_awarded (fun _ => offline) "qwen2.5:14b-instruct"
              [PInt 1; PStr "Photosynthesis."] 0 mc_question 1
              eq_refl eq_refl eq_refl)
    as [r [Hr [_ [_ [Haw _]]]]].
  exists r. split; [exact Hr | ].
  apply (proj2 Haw). reflexivity.
Defined.

(** ** Essay questions *)

Lemma blank_essay_question_raises w model q a t :
  _question_type q = inr t ->
  blank_answer a ->
  grade_essay_question w model q
    (match a with Some x => x | None => PNone end) = inl essay_error.
Proof.
  intros Ht Hb. pose proof (question_type_dict q _ Ht) as Hd.
  unfold grade_essay_question. rewrite !(get_dict q _ _ Hd). simpl bind.
  destruct a as [[ | b | z | f | s | l | kvs] | ]; simpl in Hb; try contradiction.
  - reflexivity.
  - cbn [is_str]. unfold grade_essay. rewrite Hb. reflexivity.
  - reflexivity.
Qed.



End GraderFacts.

(* ===================================================================== *)
(** * Further facts about the results of the essay grader                 *)
(* ===================================================================== *)

Module ResultFacts.
Import Text Num Py EssayGrader Spec Samples Results.
Import NumFacts DeductionFacts GradeFacts CoverageFacts OrchestratorFacts.

(** ** Deductions never carry negative points *)

Lemma missing_deductions_non_negative base remainder missed : forall idx ds,
  0 <= base ->
  missing_deductions base remainder idx missed = inr ds -> non_negative ds.
Proof.
  induction missed as [ | c cs IH]; intros idx ds Hb H.
  - inversion H. constructor.
  - simpl in H. apply bind_inr in H. destruct H as [d [Hd H]].
    apply bind_inr in H. destruct H as [tl [Htl H]]. inversion H; subst ds.
    constructor; [ | exact (IH _ _ Hb Htl)].
    rewrite (missing_deduction_points _ _ _ _ _ Hd).
    unfold extra. destruct (Z.of_nat idx <? remainder); lia.
Qed.

Lemma synthesize_non_negative grade mp coverage ds t :
  _synthesize_deductions grade mp coverage = inr (ds, t) -> non_negative ds.
Proof.
  unfold _synthesize_deductions.
  destruct (Z.eqb_spec (Z.max 0 (mp - grade)) 0) as [H0 | H0].
  - intros H. inversion H. constructor.
  - intros H. apply bind_inr in H. destruct H as [missed [_ H]].
    destruct missed as [ | c cs].
    + inversion H. constructor; [simpl; lia | constructor].
    + apply bind_inr in H. destruct H as [l [Hl H]]. inversion H; subst; clear H.
      eapply missing_deductions_non_negative; [ | exact Hl].
      apply Z.div_pos; [lia | simpl; lia].
Qed.

Lemma normalize_non_negative l : non_negative (normalize_deductions l).
Proof.
  induction l as [ | d l IH]; [constructor | ].
  simpl. destruct (normalize_deduction d) as [item | ] eqn:Hd; [ | exact IH].
  constructor; [ | exact IH].
  destruct d; simpl in Hd; try discriminate. inversion Hd. simpl. lia.
Qed.

Lemma reconcile_non_negative grade mp l ds t :
  reconcile grade mp l = (ds, t) -> non_negative ds.
Proof.
  unfold reconcile.
  destruct (negb (sum_points (normalize_deductions l) =? mp - grade));
    intros H; inversion H; subst.
  - apply Forall_app. split; [apply normalize_non_negative | ].
    constructor; [simpl; lia | constructor].
  - apply normalize_non_negative.
Qed.

(** Every deduction of every result has points of 0 or more: the ones the
    model listed are clamped, the reconciliation entry is clamped, and the
    synthesized ones share a positive number of missing points. *)
Theorem deduction_points_non_negative w essay requirements model mp r :
  grade_essay w essay requirements model mp = inr r ->
  non_negative (deductions r).
Proof.
  intros H.
  destruct (grade_essay_inr _ _ _ _ _ _ H) as [text [rs [_ [_ Hpath]]]].
  destruct Hpath as [Hmodel | [e [_ Hfall]]].
  - destruct (model_path_inr _ _ _ _ _ _ Hmodel) as [[sim [resp Hu]] | [sim [parsed Hp]]].
    + destruct (unparseable_result_inv _ _ _ _ _ _ _ Hu) as [g [ds [t [_ [Hs Hr]]]]].
      subst r. exact (synthesize_non_negative _ _ _ _ _ Hs).
    + destruct (parsed_result_inv _ _ _ _ _ _ _ Hp)
        as [gi [cov [_ [_ [_ [_ [_ [[l Hrec] | Hsyn]]]]]]]].
      * exact (reconcile_non_negative _ _ _ _ _ Hrec).
      * exact (synthesize_non_negative _ _ _ _ _ Hsyn).
  - destruct (fallback_path_inv _ _ _ _ _ Hfall) as [g [ds [t [_ [Hs Hr]]]]].
    subst r. exact (synthesize_non_negative _ _ _ _ _ Hs).
Qed.

Lemma deduction_points_non_negative_witness :
  exists r,
    grade_essay (answering overcharged) photosynthesis_essay two_requirements
      "qwen2.5:14b-instruct" 100 = inr r
    /\ non_negative (deductions r).
Proof.
  eexists. split; [vm_compute; reflexivity | ].
  apply (deduction_points_non_negative (answering overcharged) photosynthesis_essay
           two_requirements "qwen2.5:14b-instruct" 100).
  vm_compute. reflexivity.
Defined.

(** ** The backend marker *)

(** A result is marked ["ollama"] and names the model, or it is marked
    ["fallback"] and then names no model, keeps no raw response and no
    similarity, even when the similarity had been computed. It always
    repeats the [max_points] of the call. *)
Theorem backend_marker w essay requirements model mp r :
  grade_essay w essay requirements model mp = inr r ->
  max_points r = mp
  /\ ((backend r = "ollama" /\ model_used r = Some model
       /\ raw_response r <> None
       /\ semantic_similarity r = _compute_semantic_score w)
      \/ (backend r = "fallback" /\ model_used r = None
          /\ raw_response r = None /\ semantic_similarity r = None
          /\ domain_analysis r = PNone)).
Proof.
  intros H.
  destruct (grade_essay_inr _ _ _ _ _ _ H) as [text [rs [_ [_ Hpath]]]].
  destruct Hpath as [Hmodel | [e [_ Hfall]]].
  - unfold model_path in Hmodel.
    apply bind_inr in Hmodel. destruct Hmodel as [response [_ Hm]].
    assert (Hcases :
      unparseable_result text rs model mp (_compute_semantic_score w) response = inr r
      \/ exists parsed,
           parsed_result text rs model mp (_compute_semantic_score w) parsed = inr r).
    { destruct (_parse_llm_json w response); try (right; eexists; exact Hm).
      left. exact Hm. }
    destruct Hcases as [Hu | [parsed Hp]].
    + destruct (unparseable_result_inv _ _ _ _ _ _ _ Hu) as [g [ds [t [_ [_ Hr]]]]].
      subst r. cbn. split; [reflexivity | left]. repeat split. discriminate.
    + unfold parsed_result in Hp.
      apply bind_inr in Hp. destruct Hp as [g [_ Hp]].
      apply bind_inr in Hp. destruct Hp as [gi [_ Hp]].
      apply bind_inr in Hp. destruct Hp as [reasons0 [_ Hp]].
      apply bind_inr in Hp. destruct Hp as [coverage0 [_ Hp]].
      apply bind_inr in Hp. destruct Hp as [da [_ Hp]].
      apply bind_inr in Hp. destruct Hp as [llm [_ Hp]].
      apply bind_inr in Hp. destruct Hp as [[ds t] [_ Hp]].
      apply bind_inr in Hp. destruct Hp as [items [_ Hp]].
      inversion Hp; subst r. cbn. split; [reflexivity | left].
      repeat split. discriminate.
  - destruct (fallback_path_inv _ _ _ _ _ Hfall) as [g [ds [t [_ [_ Hr]]]]].
    subst r. cbn. split; [reflexivity | right]. repeat split.
Qed.

Lemma backend_marker_witness :
  exists r,
    grade_essay offline photosynthesis_essay two_requirements
      "qwen2.5:14b-instruct" 100 = inr r
    /\ max_points r = 100.
Proof.
  eexists. split; [vm_compute; reflexivity | ].
  apply (backend_marker offline photosynthesis_essay two_requirements
           "qwen2.5:14b-instruct" 100).
  vm_compute. reflexivity.
Defined.

End ResultFacts.

(* ===================================================================== *)
(** * Edge cases of the heuristic grade                                   *)
(* ===================================================================== *)

Module EdgeFacts.
Import Text Num Py EssayGrader Spec Samples Results.
Import NumFacts DeductionFacts GradeFacts CoverageFacts OrchestratorFacts.

(** ** No requirement at all *)






(** ** Nothing addressed *)

Lemma none_addressed_count coverage :
  none_addressed coverage -> addressed_count coverage = O.
Proof.
  unfold addressed_count.
  induction 1 as [ | c cs Hc Hcs IH]; [reflexivity | ].
  simpl. rewrite Hc. exact IH.
Qed.

Lemma none_addressed_unaddressed coverage :
  none_addressed coverage -> unaddressed coverage = coverage.
Proof.
  unfold unaddressed.
  induction 1 as [ | c cs Hc Hcs IH]; [reflexivity | ].
  simpl. rewrite Hc. simpl. rewrite IH. reflexivity.
Qed.

(** A ratio of zero matches scales to zero or to no number. *)
Lemma zero_ratio_scaled n m :
  is_inf m = false ->
  fmul (count_truediv 0 n) m = S754_nan
  \/ exists s, fmul (count_truediv 0 n) m = S754_zero s.
Proof.
  intros Hm. unfold count_truediv, fdiv_raw, fmul.
  change (float_of_count 0) with (S754_zero false).
  destruct (float_of_count n) as [s | s | | s mn en]; simpl;
    destruct m as [sm | sm | | sm mm em]; simpl; try discriminate; eauto.
Qed.

Lemma float_of_int_not_inf z m : float_of_int z = inr m -> is_inf m = false.
Proof.
  unfold float_of_int.
  destruct (is_inf (binary_normalize prec emax z 0 false)) eqn:Hi; [discriminate | ].
  intros H. inversion H; subst. exact Hi.
Qed.

(** The entries of the synthesis when points are missing and some item is
    not addressed. *)
Lemma synthesize_on_dicts grade mp coverage :
  all_dicts coverage ->
  Z.max 0 (mp - grade) <> 0 ->
  unaddressed coverage <> [] ->
  exists ds,
    _synthesize_deductions grade mp coverage = inr (ds, Z.max 0 (mp - grade))
    /\ List.length ds = List.length (unaddressed coverage)
    /\ Forall (fun d => d_category d = Some (PStr "missing_requirement")) ds.
Proof.
  intros Hd Hmiss Hne. unfold _synthesize_deductions.
  destruct (Z.eqb_spec (Z.max 0 (mp - grade)) 0); [contradiction | ].
  rewrite (missed_items_dicts _ Hd). simpl bind.
  pose proof (unaddressed_dicts _ Hd) as Hu.
  destruct (unaddressed coverage) as [ | c cs]; [contradiction | ].
  match goal with
  | |- context [missing_deductions ?b ?r 0 (c :: cs)] =>
      destruct (missing_deductions_dicts b r (c :: cs) 0 Hu) as [ds [Hds [Hlen Hnth]]]
  end.
  exists ds. rewrite Hds. simpl bind. split; [reflexivity | ]. split; [exact Hlen | ].
  apply Forall_forall. intros d Hin.
  apply In_nth_error in Hin. destruct Hin as [i Hi].
  assert (Hlt : (i < List.length (c :: cs))%nat).
  { rewrite <- Hlen. apply nth_error_Some. congruence. }
  destruct (nth_error (c :: cs) i) as [ci | ] eqn:Hci.
  - rewrite (Hnth i ci Hci) in Hi. inversion Hi. reflexivity.
  - apply nth_error_None in Hci. lia.
Qed.

(** When no item is addressed the grade is 0, and for [max_points > 0] all
    the points are deducted: one [missing_requirement] entry per item, the
    points adding up to [max_points]. *)
Theorem nothing_addressed_scores_zero coverage mp :
  all_dicts coverage ->
  none_addressed coverage ->
  0 <= mp ->
  returns (float_of_int mp) = true ->
  _coverage_to_grade coverage mp = inr 0
  /\ (0 < mp -> coverage <> [] ->
      exists ds,
        _synthesize_deductions 0 mp coverage = inr (ds, mp)
        /\ List.length ds = List.length coverage
        /\ sum_points ds = mp
        /\ Forall (fun d => d_category d = Some (PStr "missing_requirement")) ds).
Proof.
  intros Hd Hnone Hm Hf. split.
  - unfold _coverage_to_grade. destruct coverage as [ | c cs]; [reflexivity | ].
    rewrite (count_addressed_dicts _ Hd), (none_addressed_count _ Hnone). simpl bind.
    destruct (float_of_int mp) as [e | m] eqn:Hmp; [discriminate | ]. simpl bind.
    rewrite py_max_zero_float.
    destruct (zero_ratio_scaled (S (List.length cs)) m
                (float_of_int_not_inf _ _ Hmp)) as [Hx | [s Hx]];
      rewrite Hx; simpl compare_float_int; cbv iota;
      rewrite ?Z.compare_refl; apply py_min_int_zero; exact Hm.
  - intros Hpos Hne.
    destruct (synthesize_on_dicts 0 mp coverage Hd) as [ds [Hs [Hlen Hcat]]].
    + lia.
    + rewrite (none_addressed_unaddressed _ Hnone). exact Hne.
    + replace (Z.max 0 (mp - 0)) with mp in Hs by lia.
      rewrite (none_addressed_unaddressed _ Hnone) in Hlen.
      exists ds. repeat split; try assumption.
      destruct (synthesize_sum _ _ _ _ _ Hs) as [_ Hsum]. exact Hsum.
Qed.

Lemma nothing_addressed_scores_zero_witness :
  _coverage_to_grade [coverage_item "a" false ""; coverage_item "b" false ""] 100
  = inr 0.
Proof.
  apply (nothing_addressed_scores_zero
           [coverage_item "a" false ""; coverage_item "b" false ""] 100).
  - repeat constructor.
  - repeat constructor.
  - lia.
  - reflexivity.
Defined.

End EdgeFacts.

(* ===================================================================== *)
(** * The similarity is symmetric                                         *)
(* ===================================================================== *)

Module SymmetryFacts.
Import Text Num Py EssayGrader Spec Samples.
Import NumFacts SimilarityFacts.

Lemma products_comm v1 : forall v2, products v1 v2 = products v2 v1.
Proof.
  induction v1 as [ | a v1 IH]; intros [ | b v2]; simpl; try reflexivity.
  rewrite fmul_comm, IH. reflexivity.
Qed.

(** The cosine of two vectors does not depend on their order, and so
    neither does the score when the two embeddings are exchanged. *)
Theorem cosine_symmetric v1 v2 :
  _cosine_similarity v1 v2 = _cosine_similarity v2 v1
  /\ forall g j,
       _compute_semantic_score
         {| embedding_essay := inr v1; embedding_ideal := inr v2;
            generate := g; json_loads := j |}
       = _compute_semantic_score
           {| embedding_essay := inr v2; embedding_ideal := inr v1;
              generate := g; json_loads := j |}.
Proof.
  assert (Hcos : _cosine_similarity v1 v2 = _cosine_similarity v2 v1).
  { destruct v1 as [ | a v1]; [destruct v2; reflexivity | ].
    destruct v2 as [ | b v2]; [reflexivity | ].
    destruct (Nat.eq_dec (List.length (a :: v1)) (List.length (b :: v2))) as [He | Hn].
    - rewrite (cosine_same_length (a :: v1) (b :: v2)) by (auto; discriminate).
      rewrite (cosine_same_length (b :: v2) (a :: v1)) by (auto; discriminate).
      unfold dot_product. rewrite (products_comm (a :: v1) (b :: v2)).
      rewrite (fmul_comm (magnitude (a :: v1)) (magnitude (b :: v2))).
      rewrite orb_comm. reflexivity.
    - rewrite (cosine_guard (a :: v1) (b :: v2)) by auto.
      rewrite (cosine_guard (b :: v2) (a :: v1)) by auto. reflexivity. }
  split; [exact Hcos | ]. intros g j.
  rewrite (score_of_embeddings
             {| embedding_essay := inr v1; embedding_ideal := inr v2;
                generate := g; json_loads := j |} v1 v2 eq_refl eq_refl).
  rewrite (score_of_embeddings
             {| embedding_essay := inr v2; embedding_ideal := inr v1;
                generate := g; json_loads := j |} v2 v1 eq_refl eq_refl).
  rewrite Hcos, orb_comm. reflexivity.
Qed.

End SymmetryFacts.

(* ===================================================================== *)
(** * The salvage of a JSON object                                        *)
(* ===================================================================== *)

Module SalvageFacts.
Import Text Num Py EssayGrader Spec Samples Salvage Scores.
Import CoverageFacts.

Lemma depth_after_app p : forall d q,
  depth_after d (p ++ q) = depth_after (depth_after d p) q.
Proof.
  induction p as [ | c p IH]; intros d q; simpl; [reflexivity | apply IH].
Qed.

Lemma step_cases d c :
  (is_open c = true /\ step d c = d + 1)
  \/ (is_open c = false /\ is_close c = true /\ step d c = d - 1)
  \/ (is_open c = false /\ is_close c = false /\ step d c = d).
Proof.
  unfold step. destruct (is_open c), (is_close c); auto.
Qed.

(** The loop of the source, from a depth of at least one. *)
Lemma match_braces_sound s : forall d seen r,
  1 <= d ->
  match_braces d seen s = Some r ->
  exists m post,
    s = (m ++ post)%string /\ r = (seen ++ m)%string
    /\ depth_after d m = 0
    /\ (forall p q, m = (p ++ q)%string -> q <> EmptyString -> 0 < depth_after d p)
    /\ last None m = Some "}"%char.
Proof.
  induction s as [ | c s IH]; intros d seen r Hd H; [discriminate | ].
  simpl in H. fold (is_open c) in H. fold (is_close c) in H.
  assert (Hrec : forall d', 1 <= d' -> step d c = d' ->
            match_braces d' (snoc seen c) s = Some r ->
            exists m post,
              String c s = (m ++ post)%string /\ r = (seen ++ m)%string
              /\ depth_after d m = 0
              /\ (forall p q, m = (p ++ q)%string -> q <> EmptyString ->
                              0 < depth_after d p)
              /\ last None m = Some "}"%char).
  { intros d' Hd' Hstep Hm.
    destruct (IH d' (snoc seen c) r Hd' Hm) as [m [post [Hs [Hr [Hdepth [Hpre Hlast]]]]]].
    exists (String c m), post. subst s r.
    split; [reflexivity | ]. split; [apply snoc_append | ].
    split; [simpl; rewrite Hstep; exact Hdepth | ]. split.
    - intros p q Hpq Hq. destruct p as [ | x p]; [simpl; lia | ].
      simpl in Hpq. inversion Hpq; subst x. simpl. rewrite Hstep.
      apply (Hpre p q); assumption.
    - destruct m as [ | x m]; [simpl in Hdepth; lia | exact Hlast]. }
  destruct (is_open c) eqn:Ho.
  - apply (Hrec (d + 1)); [lia | unfold step; rewrite Ho; reflexivity | exact H].
  - destruct (is_close c) eqn:Hc.
    + destruct (Z.eqb_spec (d - 1) 0) as [Hz | Hz].
      * inversion H; subst r. exists (String c EmptyString), s.
        split; [reflexivity | ]. split; [reflexivity | ].
        split; [simpl; unfold step; rewrite Ho, Hc; exact Hz | ]. split.
        -- intros p q Hpq Hq. destruct p as [ | x p]; [simpl; lia | ].
           simpl in Hpq. inversion Hpq.
           destruct p; [ | discriminate]. simpl in *. subst q. contradiction.
        -- simpl. unfold is_close, code in Hc. apply N.eqb_eq in Hc.
           f_equal. rewrite <- (ascii_N_embedding c), Hc. reflexivity.
      * apply (Hrec (d - 1)); [lia | unfold step; rewrite Ho, Hc; reflexivity | exact H].
    + apply (Hrec d); [lia | unfold step; rewrite Ho, Hc; reflexivity | exact H].
Qed.

Lemma match_braces_complete m : forall d seen post,
  1 <= d ->
  depth_after d m = 0 ->
  (forall p q, m = (p ++ q)%string -> q <> EmptyString -> 0 < depth_after d p) ->
  match_braces d seen (m ++ post) = Some (seen ++ m)%string.
Proof.
  induction m as [ | c m IH]; intros d seen post Hd Hdepth Hpre.
  - simpl in Hdepth. lia.
  - simpl. fold (is_open c). fold (is_close c).
    assert (Hrec : forall d', 1 <= d' -> step d c = d' ->
              match_braces d' (snoc seen c) (m ++ post) = Some (seen ++ String c m)%string).
    { intros d' Hd' Hstep. rewrite <- snoc_append. apply IH.
      - exact Hd'.
      - simpl in Hdepth. rewrite Hstep in Hdepth. exact Hdepth.
      - intros p q Hpq Hq. specialize (Hpre (String c p) q).
        simpl in Hpre. rewrite Hstep in Hpre. apply Hpre; [subst m; reflexivity | exact Hq]. }
    assert (Hnext : m <> EmptyString -> 0 < step d c).
    { intros Hm. apply (Hpre (String c EmptyString) m); [reflexivity | exact Hm]. }
    destruct (step_cases d c) as [[Ho Hs] | [[Ho [Hc Hs]] | [Ho [Hc Hs]]]];
      rewrite Ho; try rewrite Hc.
    + apply Hrec; lia.
    + destruct (Z.eqb_spec (d - 1) 0) as [Hz | Hz].
      * destruct m as [ | x m]; [reflexivity | ].
        assert (0 < step d c) by (apply Hnext; discriminate). lia.
      * apply Hrec; lia.
    + apply Hrec; lia.
Qed.

Lemma extract_open_head c s :
  is_open c = true ->
  _extract_first_json_object (String c s) = match_braces 1 (snoc EmptyString c) s.
Proof.
  intros Ho. simpl. fold (is_open c). rewrite Ho. reflexivity.
Qed.

(** What [_extract_first_json_object] returns is a piece of the text that
    starts at the first opening brace of the text, ends with a closing
    brace, has as many closing as opening braces, and no shorter piece from
    that brace has. *)
Theorem extract_sound text m :
  _extract_first_json_object text = Some m ->
  exists pre post,
    text = (pre ++ m ++ post)%string
    /\ no_open pre = true
    /\ first_closed m
    /\ last None m = Some "}"%char.
Proof.
  induction text as [ | c s IH]; intros H; [discriminate | ].
  destruct (is_open c) eqn:Ho.
  - rewrite (extract_open_head c s Ho) in H.
    destruct (match_braces_sound s 1 _ m ltac:(lia) H)
      as [body [post [Hs [Hm [Hdepth [Hpre Hlast]]]]]].
    exists EmptyString, post. subst s m. simpl.
    split; [reflexivity | ]. split; [reflexivity | ]. split.
    + unfold first_closed. simpl. rewrite Ho. split; [reflexivity | ]. split.
      * unfold net_depth. simpl. unfold step. rewrite Ho. exact Hdepth.
      * intros p q Hpq Hp Hq. destruct p as [ | x p]; [contradiction | ].
        inversion Hpq; subst x. unfold net_depth. simpl. unfold step. rewrite Ho.
        apply (Hpre p q); assumption.
    + destruct body as [ | x body]; [simpl in Hdepth; lia | exact Hlast].
  - simpl in H. fold (is_open c) in H. rewrite Ho in H.
    destruct (IH H) as [pre [post [Hs [Hno [Hfirst Hlast]]]]].
    exists (String c pre), post. subst s.
    split; [reflexivity | ]. split; [ | split; assumption].
    unfold no_open in *. simpl. rewrite Ho, Hno. reflexivity.
Qed.

Lemma extract_sound_witness :
  exists pre post,
    "Sure: {a{b}c} done }" = (pre ++ "{a{b}c}" ++ post)%string
    /\ no_open pre = true.
Proof.
  destruct (extract_sound "Sure: {a{b}c} done }" "{a{b}c}" eq_refl)
    as [pre [post [Hs [Hno _]]]].
  exists pre, post. split; assumption.
Defined.

(** An object at the start of the text is returned. *)
Lemma extract_object m post :
  first_closed m -> _extract_first_json_object (m ++ post) = Some m.
Proof.
  intros [Hhead [Hdepth Hpre]].
  destruct m as [ | x m]; [discriminate | ]. simpl in Hhead.
  change (String x m ++ post)%string with (String x (m ++ post)).
  rewrite (extract_open_head x _ Hhead).
  unfold net_depth in *. simpl in Hdepth. unfold step in Hdepth. rewrite Hhead in Hdepth.
  apply (match_braces_complete m 1 (snoc EmptyString x) post); [lia | exact Hdepth | ].
  intros p q Hpq Hq. specialize (Hpre (String x p) q).
  simpl in Hpre. unfold step in Hpre. rewrite Hhead in Hpre.
  apply Hpre; [subst m; reflexivity | discriminate | exact Hq].
Qed.

(** The text before the first opening brace is skipped. *)
Lemma extract_skips pre s :
  no_open pre = true ->
  _extract_first_json_object (pre ++ s) = _extract_first_json_object s.
Proof.
  unfold no_open. induction pre as [ | c pre IH]; intros Hno; [reflexivity | ].
  simpl in Hno. apply andb_true_iff in Hno. destruct Hno as [Hc Hno].
  apply negb_true_iff in Hc. simpl. fold (is_open c). rewrite Hc. exact (IH Hno).
Qed.

(** Conversely, an object wrapped in text is found again: after a prefix
    without an opening brace, a piece whose braces close at its last
    character and not before is what the extraction returns, whatever
    follows it. Without any opening brace nothing is returned. *)
Theorem extract_complete pre m post :
  no_open pre = true ->
  (first_closed m ->
   _extract_first_json_object (pre ++ m ++ post) = Some m)
  /\ _extract_first_json_object pre = None.
Proof.
  intros Hno. split.
  - intros Hm. rewrite (extract_skips pre _ Hno). apply extract_object. exact Hm.
  - rewrite <- (append_nil_r pre), (extract_skips pre _ Hno). reflexivity.
Qed.

Lemma extract_complete_witness :
  _extract_first_json_object "no braces here" = None.
Proof.
  apply (proj2 (extract_complete "no braces here" EmptyString EmptyString eq_refl)).
Defined.

(** The parser decodes the whole text when the decoder accepts it; when it
    does not and the text wraps an object as above, the parser answers what
    the decoder makes of that object alone, [None] when it rejects it too;
    and a text without an opening brace that the decoder rejects gives
    [None]. *)
Theorem parse_salvages w pre m post :
  no_open pre = true ->
  first_closed m ->
  (forall v, json_loads w (pre ++ m ++ post) = Some v ->
             _parse_llm_json w (pre ++ m ++ post) = v)
  /\ (json_loads w (pre ++ m ++ post) = None ->
      _parse_llm_json w (pre ++ m ++ post) =
      match json_loads w m with
      | Some v => v
      | None => PNone
      end)
  /\ (json_loads w pre = None -> _parse_llm_json w pre = PNone).
Proof.
  intros Hno Hm. unfold _parse_llm_json. split; [ | split].
  - intros v Hv. rewrite Hv. reflexivity.
  - intros Hv. rewrite Hv, (extract_skips pre _ Hno), (extract_object m post Hm).
    reflexivity.
  - intros Hv. rewrite Hv.
    rewrite <- (append_nil_r pre) at 1. rewrite (extract_skips pre _ Hno). reflexivity.
Qed.

Lemma parse_salvages_witness :
  _parse_llm_json decoding_empty_object "Here you are: {} I hope it helps"
  = PDict [].
Proof.
  assert (Hfc : first_closed "{}").
  { split; [reflexivity | ]. split; [reflexivity | ].
    intros p q Hpq Hp Hq.
    destruct p as [ | x [ | y p]]; [contradiction | | ].
    - simpl in Hpq. inversion Hpq. reflexivity.
    - simpl in Hpq. inversion Hpq.
      destruct p; [ | discriminate]. simpl in *. subst q. contradiction. }
  apply (proj1 (proj2 (parse_salvages decoding_empty_object "Here you are: " "{}"
                         " I hope it helps" eq_refl Hfc))).
  reflexivity.
Defined.

End SalvageFacts.

(* ===================================================================== *)
(** * Further facts about the quiz aggregator                             *)
(* ===================================================================== *)

Module ScoreFacts.
Import Text Num Py EssayGrader Grader Spec Samples Salvage Scores.
Import DeductionFacts SalvageFacts GraderFacts.

(** ** The points of a question *)

Lemma points_for_essay_ge_1 q : 1 <= _points_for_essay q.
Proof.
  unfold _points_for_essay.
  destruct (get q "points" (PInt 10)) as [e | d]; simpl; [lia | ].
  destruct (get q "max_points" d) as [e | p]; simpl; [lia | ].
  destruct (py_int p) as [e | i]; simpl; lia.
Qed.

(** An essay question is worth at least one point whatever the question
    holds; [max_points] is read before [points]; and what is not an integer
    gives 10. *)
Theorem essay_points_positive q :
  1 <= _points_for_essay q
  /\ (forall kvs z, q = PDict kvs -> dict_get kvs "max_points" = Some (PInt z) ->
                    _points_for_essay q = Z.max 1 z)
  /\ (forall kvs z, q = PDict kvs -> dict_get kvs "max_points" = None ->
                    dict_get kvs "points" = Some (PInt z) ->
                    _points_for_essay q = Z.max 1 z)
  /\ (forall kvs, q = PDict kvs -> dict_get kvs "max_points" = None ->
                  dict_get kvs "points" = None -> _points_for_essay q = 10).
Proof.
  split; [ | split; [ | split]].
  - apply points_for_essay_ge_1.
  - intros kvs z -> H. unfold _points_for_essay. simpl.
    destruct (dict_get kvs "points"); simpl; rewrite H; reflexivity.
  - intros kvs z -> Hm Hp. unfold _points_for_essay. simpl.
    rewrite Hp. simpl. rewrite Hm. reflexivity.
  - intros kvs -> Hm Hp. unfold _points_for_essay. simpl.
    rewrite Hp. simpl. rewrite Hm. reflexivity.
Qed.

Lemma essay_points_positive_witness : _points_for_essay essay_question = 10.
Proof.
  apply (proj1 (proj2 (essay_points_positive essay_question))
           [("type", PStr "essay");
            ("text", PStr "Explain photosynthesis.");
            ("requirements", PList [PStr "Mentions photosynthesis"]);
            ("max_points", PInt 10)] 10 eq_refl eq_refl).
Defined.

(** ** The kind of a question *)



(** ** The entries and the totals *)









(** ** The answers that count *)

Lemma grade_questions_ext worlds model a1 a2 qs : forall i,
  (forall j, (i <= j < i + List.length qs)%nat -> answer_at a1 j = answer_at a2 j) ->
  grade_questions worlds model a1 i qs = grade_questions worlds model a2 i qs.
Proof.
  induction qs as [ | q qs IH]; intros i Hext; [reflexivity | ].
  simpl. assert (Hq : grade_question worlds model a1 i q
                      = grade_question worlds model a2 i q).
  { unfold grade_question. fold (answer_at a1 i). fold (answer_at a2 i).
    rewrite (Hext i); [reflexivity | simpl; lia]. }
  rewrite Hq, (IH (S i)); [reflexivity | ].
  intros j Hj. apply Hext. simpl. lia.
Qed.

Lemma answer_at_padded answers k j :
  answer_at (answers ++ repeat PNone k) j = answer_at answers j.
Proof.
  unfold answer_at.
  destruct (Nat.lt_ge_cases j (List.length answers)) as [Hlt | Hge].
  - rewrite nth_error_app1 by exact Hlt. reflexivity.
  - rewrite nth_error_app2 by exact Hge.
    rewrite (proj2 (nth_error_None answers j) Hge).
    destruct (nth_error (repeat PNone k) (j - List.length answers)) as [x | ] eqn:Hx;
      [ | reflexivity].
    apply nth_error_In in Hx. apply repeat_spec in Hx. exact Hx.
Qed.

(** An answer that is missing at the end of the list counts as [None]:
    padding the answers with [None] changes nothing. And the answers beyond
    the last question are never read. *)
Theorem answers_that_count worlds model quiz answers :
  (forall k, grade_quiz worlds model quiz (answers ++ repeat PNone k)
             = grade_quiz worlds model quiz answers)
  /\ (forall qs surplus,
        get quiz "questions" (PList []) = inr (PList qs) ->
        (List.length qs <= List.length answers)%nat ->
        grade_quiz worlds model quiz (answers ++ surplus)
        = grade_quiz worlds model quiz answers).
Proof.
  split.
  - intros k. unfold grade_quiz.
    destruct (get quiz "questions" (PList [])) as [e | qs]; [reflexivity | ]. simpl bind.
    destruct (iter qs) as [e | questions]; [reflexivity | ]. simpl bind.
    rewrite (grade_questions_ext worlds model (answers ++ repeat PNone k) answers
               questions 0); [reflexivity | ].
    intros j _. apply answer_at_padded.
  - intros qs surplus Hq Hlen.
    rewrite !(grade_quiz_questions _ _ _ _ _ Hq).
    rewrite (grade_questions_ext worlds model (answers ++ surplus) answers qs 0);
      [reflexivity | ].
    intros j Hj. unfold answer_at. rewrite nth_error_app1 by lia. reflexivity.
Qed.

Lemma answers_that_count_witness :
  grade_quiz (fun _ => offline) "qwen2.5:14b-instruct" sample_quiz
    ([PInt 1; PStr "Photosynthesis."] ++ [PInt 7])
  = grade_quiz (fun _ => offline) "qwen2.5:14b-instruct" sample_quiz
      [PInt 1; PStr "Photosynthesis."].
Proof.
  apply (proj2 (answers_that_count (fun _ => offline) "qwen2.5:14b-instruct"
                  sample_quiz [PInt 1; PStr "Photosynthesis."])
               [mc_question; essay_question] [PInt 7] eq_refl).
  simpl. lia.
Defined.

End ScoreFacts.

(* ===================================================================== *)
(** * The evidence of the coverage analyzer                               *)
(* ===================================================================== *)

Module EvidenceFacts.
Import Text Num Py EssayGrader Spec Samples Evidence.
Import CoverageFacts.


















End EvidenceFacts.

(* ===================================================================== *)
(** * The submission of a quiz                                            *)
(* ===================================================================== *)

Module AppFacts.
Import Text Num Py EssayGrader Grader Spec Samples Scores App.
Import DeductionFacts CoverageFacts GraderFacts.

(** ** The two readings of the type of a question *)






Lemma form_type_returns q t :
  _question_type q = inr t -> exists t', form_type q = inr t'.
Proof.
  unfold form_type, _question_type.
  destruct (get q "type" PNone) as [e | t0]; [discriminate | ]. simpl bind.
  destruct (py_or t0 (PStr "mc")); try discriminate. eauto.
Qed.

(** ** The answers read from the form *)

Lemma collect_answers_nth f qs : forall idx answers,
  collect_answers f idx qs = inr answers ->
  List.length answers = List.length qs
  /\ forall k q, nth_error qs k = Some q ->
       exists a, nth_error answers k = Some a
                 /\ collect_answer f (idx + k) q = inr a.
Proof.
  induction qs as [ | q0 qs IH]; intros idx answers H.
  - inversion H. split; [reflexivity | ]. intros [ | k] q Hk; discriminate.
  - simpl in H. apply bind_inr in H. destruct H as [a0 [Ha0 H]].
    apply bind_inr in H. destruct H as [tl [Htl H]]. inversion H; subst answers.
    destruct (IH _ _ Htl) as [Hlen Hnth]. split; [simpl; congruence | ].
    intros [ | k] q Hk; simpl in Hk.
    + inversion Hk; subst q0. exists a0. rewrite Nat.add_0_r. split; auto.
    + destruct (Hnth k q Hk) as [a [Ha Hc]].
      exists a. rewrite Nat.add_succ_r. split; auto.
Qed.

(** What a submission that is scored went through. *)
Lemma submit_grade_inr worlds model f quiz sc qs :
  questions_of quiz = inr (PList qs) ->
  submit_grade worlds model f quiz = inr sc ->
  exists answers rs,
    collect_answers f 0 qs = inr answers
    /\ grade_questions worlds model answers 0 qs = inr rs
    /\ per_question sc = rs.
Proof.
  intros Hq H. unfold submit_grade in H. rewrite Hq in H. simpl in H.
  apply bind_inr in H. destruct H as [answers [Ha H]].
  assert (Hget : get quiz "questions" (PList []) = inr (PList qs)).
  { unfold questions_of in Hq. destruct quiz; try discriminate. simpl.
    destruct (dict_get kvs "questions"); [exact Hq | discriminate]. }
  rewrite (grade_quiz_questions _ _ _ _ _ Hget) in H.
  apply bind_inr in H. destruct H as [rs [Hrs H]]. inversion H; subst sc.
  exists answers, rs. repeat split; assumption.
Qed.

Lemma submitted_question worlds model f quiz sc qs i q :
  questions_of quiz = inr (PList qs) ->
  submit_grade worlds model f quiz = inr sc ->
  nth_error qs i = Some q ->
  exists answers a r,
    nth_error answers i = Some a
    /\ collect_answer f i q = inr a
    /\ grade_question worlds model answers i q = inr r
    /\ nth_error (per_question sc) i = Some r.
Proof.
  intros Hq H Hi.
  destruct (submit_grade_inr _ _ _ _ _ _ Hq H) as [answers [rs [Ha [Hrs Hsc]]]].
  destruct (collect_answers_nth _ _ _ _ Ha) as [_ Hnth].
  destruct (Hnth i q Hi) as [a [Hai Hc]].
  destruct (grade_questions_nth _ _ _ _ _ _ Hrs i q Hi) as [r [Hr Hg]].
  exists answers, a, r. rewrite Hsc. repeat split; assumption.
Qed.

(** ** Essay questions *)

(** A submission is scored only if every question the grader takes for an
    essay is also an essay for the form, and its field holds something else
    than blanks: with an empty or missing field, and with a type such as
    [" essay"] that only the grader reads as an essay, the grading raises. *)
Theorem scored_essays_are_filled worlds model f quiz qs sc i q :
  questions_of quiz = inr (PList qs) ->
  submit_grade worlds model f quiz = inr sc ->
  nth_error qs i = Some q ->
  _question_type q = inr "essay" ->
  form_type q = inr "essay"
  /\ exists s, f i = Some s /\ is_empty (strip s) = false.
Proof.
  intros Hq H Hi Ht.
  destruct (submitted_question _ _ _ _ _ _ _ _ Hq H Hi)
    as [answers [a [r [Hai [Hc [Hg _]]]]]].
  assert (Hraise : forall x, blank_answer (Some x) -> a = x -> False).
  { intros x Hb ->. unfold grade_question in Hg. rewrite Ht, Hai in Hg.
    simpl bind in Hg. change (String.eqb "essay" "essay") with true in Hg.
    cbv iota in Hg.
    pose proof (blank_essay_question_raises (worlds i) model q (Some x) _ Ht Hb) as Hr.
    simpl in Hr. congruence. }
  assert (Hbad : forall x, is_str x = false -> a = x -> False).
  { intros x Hx ->. unfold grade_question in Hg. rewrite Ht, Hai in Hg.
    simpl bind in Hg. change (String.eqb "essay" "essay") with true in Hg.
    cbv iota in Hg. unfold grade_essay_question in Hg.
    rewrite !(get_dict q _ _ (question_type_dict q _ Ht)) in Hg. simpl bind in Hg.
    rewrite Hx in Hg.
    assert (Hv : valid_essay (py_or x (PStr EmptyString)) = false).
    { unfold py_or. destruct (truthy x); [ | reflexivity].
      destruct x; try reflexivity. discriminate. }
    unfold grade_essay in Hg.
    destruct (py_or x (PStr EmptyString)) as [ | | | | s | | ]; try discriminate.
    simpl in Hv. apply negb_false_iff in Hv. rewrite Hv in Hg. discriminate. }
  unfold collect_answer in Hc.
  destruct (form_type q) as [e | t] eqn:Hf; [discriminate | ]. simpl bind in Hc.
  destruct (String.eqb_spec t "essay") as [-> | Hne].
  - split; [reflexivity | ].
    inversion Hc as [Ha].
    destruct (f i) as [s | ] eqn:Hfi.
    + exists s. split; [reflexivity | ].
      destruct (is_empty (strip s)) eqn:He; [ | reflexivity].
      exfalso. apply (Hraise (PStr (strip s))); [ | auto].
      simpl. destruct (strip s) eqn:Hs; [reflexivity | discriminate].
    + exfalso. apply (Hraise (PStr (strip EmptyString))); [reflexivity | auto].
  - exfalso. destruct (f i) as [s | ].
    + simpl py_int in Hc. destruct (int_literal s) as [z | ]; inversion Hc as [Ha].
      * apply (Hbad (PInt z)); auto.
      * apply (Hbad PNone); auto.
    + inversion Hc as [Ha]. apply (Hbad PNone); auto.
Qed.

Lemma scored_essays_are_filled_witness :
  exists s, sample_form 1%nat = Some s /\ is_empty (strip s) = false.
Proof.
  assert (Hsc : exists sc,
            submit_grade (fun _ => offline) "qwen2.5:14b-instruct" sample_form
              sample_quiz = inr sc).
  { eexists. vm_compute. reflexivity. }
  destruct Hsc as [sc Hsc].
  apply (proj2 (scored_essays_are_filled (fun _ => offline) "qwen2.5:14b-instruct"
                  sample_form sample_quiz [mc_question; essay_question] sc 1%nat
                  essay_question eq_refl Hsc eq_refl eq_refl)).
Defined.

(** ** Choice questions *)




End AppFacts.

(* ===================================================================== *)
(** * The questions the wizard builds                                     *)
(* ===================================================================== *)

Module WizardFacts.
Import Text Num Py EssayGrader Grader Spec Wizard.
Import DeductionFacts.

Lemma stripped_pieces_non_empty l :
  Forall (fun r => is_empty r = false) (stripped_pieces l).
Proof.
  unfold stripped_pieces. induction l as [ | r l IH]; simpl; [constructor | ].
  destruct (is_empty (strip r)) eqn:He; simpl; [exact IH | ].
  constructor; assumption.
Qed.

Lemma points_or_positive raw d : 1 <= d -> 1 <= points_or raw d.
Proof.
  intros Hd. unfold points_or.
  match goal with |- context [?p <=? 0] => destruct (Z.leb_spec p 0) end; lia.
Qed.

Lemma strings_of_map l : strings_of (map PStr l) = Some l.
Proof.
  induction l as [ | s l IH]; simpl; [reflexivity | ]. rewrite IH. reflexivity.
Qed.

Lemma essay_points text reqs mp :
  1 <= mp ->
  _points_for_essay (PDict [("type", PStr "essay"); ("text", PStr text);
                            ("requirements", reqs); ("max_points", PInt mp)]) = mp.
Proof. intros H. unfold _points_for_essay. cbn. lia. Qed.

Lemma build_essay_well_formed text f q :
  build_essay text f = Built q -> essay_well_formed q.
Proof.
  unfold build_essay.
  pose proof (stripped_pieces_non_empty
                (split_blank_line (remove_char carriage_return
                                     (stripped (f_requirements f))))) as Hne.
  destruct (stripped_pieces _) as [ | r rs] eqn:Hrs; [discriminate | ].
  pose proof (points_or_positive (stripped (f_max_points f)) 10 ltac:(lia)) as Hp.
  remember (points_or (stripped (f_max_points f)) 10) as mp.
  remember (r :: rs) as reqs.
  intros H. injection H as <-.
  unfold essay_well_formed. rewrite (essay_points _ _ _ Hp).
  split; [reflexivity | ]. split.
  { unfold valid_requirements, field, field_or. cbn - [strings_of map].
    rewrite strings_of_map. reflexivity. }
  split.
  { exists reqs. split; [reflexivity | ]. split; [subst reqs; discriminate | exact Hne]. }
  split; [exact Hp | reflexivity].
Qed.

Lemma build_mc_inv text f q :
  build_mc text f = Built q ->
  exists opts k,
    int_literal (stripped (f_correct f)) = Some k
    /\ (2 <= List.length opts)%nat
    /\ Forall (fun o => is_empty o = false) opts
    /\ 1 <= k <= Z.of_nat (List.length opts)
    /\ q = PDict [("type", PStr "mc");
                  ("text", PStr text);
                  ("options", PList (map PStr opts));
                  ("correct_index", PInt (k - 1));
                  ("points", PInt (points_or (stripped (f_points f)) 1))].
Proof.
  unfold build_mc.
  destruct (is_empty (stripped (f_options f))); [discriminate | ].
  match goal with
  | |- context [stripped_pieces ?l] =>
      pose proof (stripped_pieces_non_empty l) as Hne;
      remember (stripped_pieces l) as opts
  end.
  destruct (Nat.ltb_spec (List.length opts) 2) as [ | Hl]; [discriminate | ].
  destruct (int_literal (stripped (f_correct f))) as [k | ]; [ | discriminate].
  destruct (Z.ltb_spec k 1) as [ | Hk1]; [discriminate | ].
  destruct (Z.ltb_spec (Z.of_nat (List.length opts)) k) as [ | Hk2]; [discriminate | ].
  simpl orb. cbv iota. intros Hq. injection Hq as <-.
  exists opts, k. repeat split; auto; lia.
Qed.

Lemma build_mc_well_formed text f q :
  build_mc text f = Built q -> mc_well_formed q.
Proof.
  intros H. destruct (build_mc_inv _ _ _ H) as [opts [k [_ [Hl [Hne [Hk ->]]]]]].
  pose proof (points_or_positive (stripped (f_points f)) 1 ltac:(lia)) as Hp.
  unfold mc_well_formed.
  split; [reflexivity | ]. split.
  { exists opts, (k - 1). split; [reflexivity | ]. split; [exact Hl | ].
    split; [exact Hne | ]. split; [reflexivity | lia]. }
  split; [exact Hp | reflexivity].
Qed.

Lemma build_question_inv f q :
  build_question f = Built q ->
  is_empty (stripped (f_text f)) = false
  /\ (build_essay (stripped (f_text f)) f = Built q
      \/ build_mc (stripped (f_text f)) f = Built q).
Proof.
  unfold build_question.
  destruct (is_empty (stripped (f_text f))); [discriminate | ].
  destruct (String.eqb _ "essay"); auto.
Qed.

Lemma build_question_well_formed f q :
  build_question f = Built q -> well_formed q.
Proof.
  intros H. destruct (build_question_inv _ _ H) as [_ [He | Hm]].
  - left. eapply build_essay_well_formed; eauto.
  - right. eapply build_mc_well_formed; eauto.
Qed.

(** When the loop of the wizard ends without a message, it has built one
    question for each index, and each is as the grader needs it: an essay
    question with a non-empty list of non-empty requirements and at least
    one point, or a choice question with at least two non-empty options, an
    index of the correct option within them and at least one point. *)
Theorem built_questions_well_formed form n : forall i qs,
  build_questions form i n = Built qs ->
  List.length qs = n /\ Forall well_formed qs.
Proof.
  induction n as [ | n IH]; intros i qs H; simpl in H.
  - inversion H. split; [reflexivity | constructor].
  - destruct (build_question (form i)) as [q | m] eqn:Hq; [ | discriminate].
    destruct (build_questions form (S i) n) as [qs' | m] eqn:Hqs; [ | discriminate].
    inversion H; subst qs. destruct (IH _ _ Hqs) as [Hl Hw].
    split; [simpl; congruence | ].
    constructor; [eapply build_question_well_formed; eauto | exact Hw].
Qed.

Lemma built_questions_well_formed_witness :
  exists qs, build_questions sample_wizard_form 0 2 = Built qs
             /\ List.length qs = 2%nat /\ Forall well_formed qs.
Proof.
  eexists. split; [vm_compute; reflexivity | ].
  apply (built_questions_well_formed sample_wizard_form 2 0%nat).
  vm_compute. reflexivity.
Defined.

(** The wizard counts the options from 1 and the grader from 0, and the two
    agree: on a choice question the wizard built from the number [k], the
    grader awards the points, at least one, for the answer [k - 1] and
    nothing for any other integer. *)
Theorem wizard_choice_round_trip f q a :
  build_question f = Built q ->
  _question_type q = inr "mc" ->
  exists k r,
    int_literal (stripped (f_correct f)) = Some k
    /\ grade_mc_question q (PInt a) = inr r
    /\ 1 <= q_max_points r
    /\ awarded r = (if a =? k - 1 then q_max_points r else 0).
Proof.
  intros H Ht. destruct (build_question_inv _ _ H) as [_ [He | Hm]].
  - apply build_essay_well_formed in He. destruct He as [He _]. congruence.
  - destruct (build_mc_inv _ _ _ Hm) as [opts [k [Hk [_ [_ [_ ->]]]]]].
    pose proof (points_or_positive (stripped (f_points f)) 1 ltac:(lia)) as Hp.
    exists k. eexists. split; [exact Hk | ].
    split; [reflexivity | ]. split; [exact Hp | reflexivity].
Qed.

Lemma wizard_choice_round_trip_witness :
  exists q r, build_question choice_fields = Built q
              /\ grade_mc_question q (PInt 1) = inr r
              /\ awarded r = 1.
Proof.
  eexists.
  destruct (wizard_choice_round_trip choice_fields _ 1 eq_refl eq_refl)
    as [k [r [Hk [Hr [_ Haw]]]]].
  exists r. split; [reflexivity | ]. split; [exact Hr | ].
  vm_compute in Hk. inversion Hk; subst k. rewrite Haw.
  vm_compute in Hr. inversion Hr. reflexivity.
Defined.

End WizardFacts.

(* ===================================================================== *)
(** * Answers of the model that are not the object asked for              *)
(* ===================================================================== *)

Module AnswerFacts.
Import Text Num Py EssayGrader Grader Spec Samples.
Import DeductionFacts CoverageFacts OrchestratorFacts.

(** When the answer of the model decodes to something that is neither
    [None] nor an object (a list, a number, a string, a boolean), the call
    [parsed.get] raises an [AttributeError], and what [grade_essay] gives is
    what the fallback gives for that exception: the answer of the model is
    dropped, not graded. *)
Theorem non_object_answer_falls_back w text reqs model mp resp v :
  is_empty (strip text) = false ->
  generate w = inr resp ->
  _parse_llm_json w resp = v ->
  v <> PNone ->
  is_dict v = false ->
  grade_essay w (PStr text) (PList (map PStr reqs)) model mp
  = fallback_path text reqs mp (AttributeError v "get").
Proof.
  intros Ht Hg Hp Hn Hd. unfold grade_essay.
  rewrite Ht, (list_of_str_strs reqs).
  unfold model_path. rewrite Hg. simpl bind. rewrite Hp.
  destruct v; try reflexivity; [congruence | discriminate].
Qed.

Lemma non_object_answer_falls_back_witness :
  exists r,
    grade_essay (answering (PList [PInt 7])) photosynthesis_essay
      (PList (map PStr ["Mentions photosynthesis"])) "qwen2.5:14b-instruct" 100
    = inr r
    /\ backend r = "fallback".
Proof.
  eexists. split.
  - unfold photosynthesis_essay.
    rewrite (non_object_answer_falls_back (answering (PList [PInt 7]))
               "Photosynthesis is how plants make food. It uses light."
               ["Mentions photosynthesis"] "qwen2.5:14b-instruct" 100 "{}"
               (PList [PInt 7]) eq_refl eq_refl eq_refl
               ltac:(discriminate) eq_refl).
    vm_compute. reflexivity.
  - reflexivity.
Defined.



End AnswerFacts.
